(** * Tool dispatch and human-date normalisation: a shallow embedding

    The development follows the TypeScript sources
      - lib/llm/types.ts, lib/llm/registry.ts, lib/llm/executor.ts,
      - lib/llm/tools/date-parser.ts,
      - lib/date-parser.ts
    and states the properties of the specification over them.

    Conventions of the embedding.
      - A JavaScript string is a [string]; every [ascii] stands for one
        UTF-16 code unit below 256 (the Latin-1 range).
      - A statement that may [throw] is a [Completion]: [Return v] or
        [Throw e], [e] being the thrown JavaScript value.
      - An [async] function whose promise settles is the [Completion]
        it settles with; handlers are taken to settle.
      - The wall clock and the registry singleton are explicit
        arguments. *)

From Stdlib Require Import String Ascii List ZArith QArith Qround Lia Lqa Bool.
Import ListNotations.

Local Open Scope string_scope.
Local Open Scope Z_scope.

(** ** JavaScript values *)

(** The values that flow through the dispatcher ([unknown] in the
    source).  [JSErrorObj ctor msg] is an instance of [Error] built by
    the constructor [ctor] with [message] [msg]. *)
#[warnings="-register-all"]
Inductive JSValue : Type :=
| JSUndefined
| JSNull
| JSBool (b : bool)
| JSNumber (z : Z)
| JSString (s : string)
| JSObject (props : list (string * JSValue))
| JSErrorObj (ctor : string) (message : string).

(** [new Error(msg)] *)
Definition new_Error (msg : string) : JSValue := JSErrorObj "Error" msg.

(** [e instanceof Error] *)
Definition instanceof_Error (e : JSValue) : bool :=
  match e with
  | JSErrorObj _ _ => true
  | _ => false
  end.

(** [error instanceof Error ? error.message : 'Unknown error'] *)
Definition error_message_or_unknown (error : JSValue) : string :=
  match error with
  | JSErrorObj _ message => message
  | _ => "Unknown error"
  end.

(** ** Completions: return or throw *)

Inductive Completion (A : Type) : Type :=
| Return (a : A)
| Throw (e : JSValue).

Arguments Return {A} a.
Arguments Throw {A} e.

Definition bind {A B : Type} (c : Completion A) (k : A -> Completion B)
  : Completion B :=
  match c with
  | Return a => k a
  | Throw e => Throw e
  end.

(** [try { body } catch (error) { handler }] *)
Definition try_catch {A : Type} (body : Completion A)
  (handler : JSValue -> Completion A) : Completion A :=
  match body with
  | Return a => Return a
  | Throw e => handler e
  end.

Declare Scope completion_scope.
Delimit Scope completion_scope with completion.
Notation "x <- c ;; k" := (bind c (fun x => k))
  (at level 61, c at next level, right associativity) : completion_scope.
Local Open Scope completion_scope.

(** ** lib/llm/types.ts *)

(** [Record<string, unknown>] *)
Definition ParameterBag : Type := list (string * JSValue).

Fixpoint bag_get (bag : ParameterBag) (key : string) : JSValue :=
  match bag with
  | [] => JSUndefined
  | (k, v) :: rest => if String.eqb k key then v else bag_get rest key
  end.

Module ParameterSchema.
Record t : Type := mk {
  type : string;
  properties : list (string * JSValue);
  required : option (list string)
}.
End ParameterSchema.

Module ToolDefinition.
Record t : Type := mk {
  name : string;
  description : string;
  parameters : ParameterSchema.t;
  execute : ParameterBag -> Completion JSValue
}.
End ToolDefinition.

Module ToolInvocation.
Record t : Type := mk {
  id : string;
  name : string;
  parameters : ParameterBag
}.
End ToolInvocation.

(** The optional fields [result?], [error?] and [durationMs?] are
    [None] when the object literal does not define the property. *)
Module ToolResult.
Record t : Type := mk {
  id : string;
  name : string;
  result : option JSValue;
  error : option string;
  durationMs : option Z
}.
End ToolResult.

(** ** lib/llm/registry.ts *)

(** A JavaScript [Map<string, V>]: keys are unique and kept in
    insertion order. *)
Module JSMap.
Section Ops.
Context {V : Type}.

Definition t : Type := list (string * V).

Definition empty : t := [].

Fixpoint get (m : t) (key : string) : option V :=
  match m with
  | [] => None
  | (k, v) :: rest => if String.eqb k key then Some v else get rest key
  end.

Definition has (m : t) (key : string) : bool :=
  match get m key with
  | Some _ => true
  | None => false
  end.

(** [set] overwrites in place an existing key and appends a new one. *)
Fixpoint set (m : t) (key : string) (value : V) : t :=
  match m with
  | [] => [(key, value)]
  | (k, v) :: rest =>
      if String.eqb k key then (k, value) :: rest
      else (k, v) :: set rest key value
  end.

Definition values (m : t) : list V := map snd m.
End Ops.
Arguments t : clear implicits.
End JSMap.

Definition dquote : string := String (ascii_of_nat 34) EmptyString.

Module ToolRegistry.
Record t : Type := mk { tools : JSMap.t ToolDefinition.t }.

(** [new ToolRegistry()] *)
Definition new : t := mk JSMap.empty.

(** [register] runs on the registry [this] and gives back the
    completion of the call together with the registry after it. *)
Definition register (this : t) (tool : ToolDefinition.t)
  : Completion unit * t :=
  if JSMap.has (tools this) (ToolDefinition.name tool) then
    (Throw (new_Error ("Tool " ++ dquote ++ ToolDefinition.name tool
                         ++ dquote ++ " is already registered")),
     this)
  else
    (Return tt,
     mk (JSMap.set (tools this) (ToolDefinition.name tool) tool)).

Definition get (this : t) (name : string) : option ToolDefinition.t :=
  JSMap.get (tools this) name.

Definition getAll (this : t) : list ToolDefinition.t :=
  JSMap.values (tools this).

Definition has (this : t) (name : string) : bool :=
  JSMap.has (tools this) name.
End ToolRegistry.

(** ** lib/llm/executor.ts *)

(** The two readings of [performance.now()] that one call of
    [executeTool] makes, in milliseconds.  The readings and their
    difference are taken as exact numbers; the source holds them as
    binary64 numbers, whose difference is rounded before [Math.round]
    sees it, so the two can differ by one where the exact difference
    is next to a half.  The properties below use only that the
    difference of a later and an earlier reading is not negative,
    which the rounding keeps. *)
Record PerformanceReadings : Type := {
  startTime : Q;
  endTime : Q
}.

(** [performance.now()] never runs backwards. *)
Definition monotonic (clock : PerformanceReadings) : Prop :=
  (startTime clock <= endTime clock)%Q.

(** [Math.round]: the nearest integer, halves towards plus infinity. *)
Definition Math_round (x : Q) : Z := Qfloor (x + (1 # 2))%Q.

Definition executeTool (toolRegistry : ToolRegistry.t)
  (clock : PerformanceReadings) (invocation : ToolInvocation.t)
  : Completion ToolResult.t :=
  let startTime := startTime clock in
  try_catch
    (tool <- match ToolRegistry.get toolRegistry
                     (ToolInvocation.name invocation) with
             | None =>
                 Throw (new_Error ("Tool " ++ dquote
                                     ++ ToolInvocation.name invocation
                                     ++ dquote ++ " not found"))
             | Some tool => Return tool
             end ;;
     result <- ToolDefinition.execute tool
                 (ToolInvocation.parameters invocation) ;;
     Return {| ToolResult.id := ToolInvocation.id invocation;
               ToolResult.name := ToolInvocation.name invocation;
               ToolResult.result := Some result;
               ToolResult.error := None;
               ToolResult.durationMs :=
                 Some (Math_round (endTime clock - startTime)%Q) |})
    (fun error =>
       Return {| ToolResult.id := ToolInvocation.id invocation;
                 ToolResult.name := ToolInvocation.name invocation;
                 ToolResult.result := None;
                 ToolResult.error := Some (error_message_or_unknown error);
                 ToolResult.durationMs :=
                   Some (Math_round (endTime clock - startTime)%Q) |}).

(** [Array.prototype.map]: the callback receives the element; the index
    selects the clock readings of that call. *)
Fixpoint map_from {A B : Type} (f : nat -> A -> B) (i : nat) (l : list A)
  : list B :=
  match l with
  | [] => []
  | a :: rest => f i a :: map_from f (S i) rest
  end.

(** [Promise.all]: fulfilled with the values in input order when every
    promise is fulfilled, rejected as soon as one is. *)
Fixpoint Promise_all {A : Type} (ps : list (Completion A))
  : Completion (list A) :=
  match ps with
  | [] => Return []
  | p :: rest =>
      match p, Promise_all rest with
      | Return a, Return l => Return (a :: l)
      | Throw e, _ => Throw e
      | Return _, Throw e => Throw e
      end
  end.

Definition executeTools (toolRegistry : ToolRegistry.t)
  (clocks : nat -> PerformanceReadings)
  (invocations : list ToolInvocation.t)
  : Completion (list ToolResult.t) :=
  Promise_all
    (map_from (fun i => executeTool toolRegistry (clocks i)) 0%nat
       invocations).

(** ** JavaScript strings *)

Definition char_code (c : ascii) : N := N_of_ascii c.

Definition in_range (lo hi : N) (c : ascii) : bool :=
  ((lo <=? char_code c) && (char_code c <=? hi))%N.

(** White space and line terminators below U+0100: TAB, LF, VT, FF, CR,
    SPACE and NO-BREAK SPACE.  [trim] and the class [\s] share the set. *)
Definition is_whitespace (c : ascii) : bool :=
  in_range 9 13 c || (char_code c =? 32)%N || (char_code c =? 160)%N.

(** [\d] *)
Definition is_digit (c : ascii) : bool := in_range 48 57 c.

(** [\w], that is [[A-Za-z0-9_]] *)
Definition is_word_char (c : ascii) : bool :=
  in_range 97 122 c || in_range 65 90 c || is_digit c
  || (char_code c =? 95)%N.

(** [toLowerCase] below U+0100: A-Z, and the accented capitals
    U+00C0..U+00DE but the multiplication sign U+00D7, move up by 32. *)
Definition toLowerCase_char (c : ascii) : ascii :=
  if in_range 65 90 c
     || (in_range 192 222 c && negb (char_code c =? 215)%N)
  then ascii_of_N (char_code c + 32)
  else c.

Fixpoint toLowerCase (s : string) : string :=
  match s with
  | EmptyString => EmptyString
  | String c rest => String (toLowerCase_char c) (toLowerCase rest)
  end.

Fixpoint trimStart (s : string) : string :=
  match s with
  | EmptyString => EmptyString
  | String c rest => if is_whitespace c then trimStart rest else s
  end.

Fixpoint trimEnd (s : string) : string :=
  match s with
  | EmptyString => EmptyString
  | String c rest =>
      match trimEnd rest with
      | EmptyString =>
          if is_whitespace c then EmptyString else String c EmptyString
      | kept => String c kept
      end
  end.

Definition trim (s : string) : string := trimEnd (trimStart s).

Definition is_empty (s : string) : bool :=
  match s with
  | EmptyString => true
  | String _ _ => false
  end.

(** [s.startsWith(p)] *)
Definition startsWith (s p : string) : bool := String.prefix p s.

(** [s.includes(needle)] *)
Fixpoint includes (s needle : string) : bool :=
  String.prefix needle s
  || match s with
     | EmptyString => false
     | String _ rest => includes rest needle
     end.

(** ** Regular expressions

    The fragment of the JavaScript syntax the parser uses: single
    characters and the classes [\d], [\w], [\s], their greedy
    repetitions, [?], sequence, alternation and capture groups.  The
    matcher backtracks as the JavaScript one does: an alternative or a
    repetition count is tried in priority order and the first that lets
    the rest of the pattern succeed wins. *)

Inductive atom : Type :=
| Chr (c : ascii)
| Digit
| Word
| Space.

Definition atom_test (a : atom) (c : ascii) : bool :=
  match a with
  | Chr c' => Ascii.eqb c' c
  | Digit => is_digit c
  | Word => is_word_char c
  | Space => is_whitespace c
  end.

Inductive regex : Type :=
| One (a : atom)
| Star (a : atom)
| Plus (a : atom)
| Repeat (n : nat) (a : atom)
| Opt (r : regex)
| Cat (r1 r2 : regex)
| Alt (r1 r2 : regex)
| Group (r : regex)
| Eps.

Section Matcher.
Context {R : Type}.

(** [a*]: as many characters as possible first. *)
Fixpoint star_k (a : atom) (s : string) (k : string -> option R)
  : option R :=
  match s with
  | EmptyString => k s
  | String c rest =>
      if atom_test a c then
        match star_k a rest k with
        | Some r => Some r
        | None => k s
        end
      else k s
  end.

(** [a{n}] *)
Fixpoint repeat_k (n : nat) (a : atom) (s : string)
  (k : string -> option R) : option R :=
  match n with
  | O => k s
  | S n' =>
      match s with
      | EmptyString => None
      | String c rest => if atom_test a c then repeat_k n' a rest k else None
      end
  end.
End Matcher.

(** The text between the position [s] and the later position [rest]. *)
Definition consumed (s rest : string) : string :=
  substring 0 (String.length s - String.length rest) s.

Definition captures : Type := list string.

Fixpoint match_k (r : regex) (s : string) (caps : captures)
  (k : string -> captures -> option captures) : option captures :=
  match r with
  | One a =>
      match s with
      | EmptyString => None
      | String c rest => if atom_test a c then k rest caps else None
      end
  | Star a => star_k a s (fun rest => k rest caps)
  | Plus a =>
      match s with
      | EmptyString => None
      | String c rest =>
          if atom_test a c then star_k a rest (fun rest' => k rest' caps)
          else None
      end
  | Repeat n a => repeat_k n a s (fun rest => k rest caps)
  | Opt r1 =>
      match match_k r1 s caps k with
      | Some res => Some res
      | None => k s caps
      end
  | Cat r1 r2 => match_k r1 s caps (fun rest caps' => match_k r2 rest caps' k)
  | Alt r1 r2 =>
      match match_k r1 s caps k with
      | Some res => Some res
      | None => match_k r2 s caps k
      end
  | Group r1 =>
      match_k r1 s caps
        (fun rest caps' => k rest (caps' ++ [consumed s rest])%list)
  | Eps => k s caps
  end.

(** [s.match(/^r$/)]: the capture groups in order, or [None] for
    [null]. *)
Definition String_match (s : string) (r : regex) : option captures :=
  match_k r s []
    (fun rest caps => if is_empty rest then Some caps else None).

(** [m[i]] for [i >= 1] *)
Definition group (m : captures) (i : nat) : string :=
  nth (i - 1) m EmptyString.

Fixpoint lit (w : string) : regex :=
  match w with
  | EmptyString => Eps
  | String c rest => Cat (One (Chr c)) (lit rest)
  end.

Definition seq_re (rs : list regex) : regex := fold_right Cat Eps rs.

(** [/^(\d{4})-(\d{2})-(\d{2})$/] *)
Definition isoDate_re : regex :=
  seq_re [Group (Repeat 4 Digit); lit "-"; Group (Repeat 2 Digit);
          lit "-"; Group (Repeat 2 Digit)].

(** [/^next\s+(\w+)$/] *)
Definition nextDay_re : regex :=
  seq_re [lit "next"; Plus Space; Group (Plus Word)].

(** [days?|weeks?] *)
Definition unit_re : regex :=
  Alt (Cat (lit "day") (Opt (lit "s"))) (Cat (lit "week") (Opt (lit "s"))).

(** [/^(\w+)\s+(days?|weeks?)\s+from\s+now$/] *)
Definition fromNow_re : regex :=
  seq_re [Group (Plus Word); Plus Space; Group unit_re; Plus Space;
          lit "from"; Plus Space; lit "now"].

(** [/^today\s*\+\s*(\d+)\s*(days?|weeks?)$/] *)
Definition addition_re : regex :=
  seq_re [lit "today"; Star Space; lit "+"; Star Space;
          Group (Plus Digit); Star Space; Group unit_re].

(** ** Numbers and their decimal text *)

(** The character of the last decimal digit of [n]. *)
Definition digit_char (n : Z) : ascii := ascii_of_N (Z.to_N (48 + n mod 10)).

Definition digit_value (c : ascii) : Z := Z.of_N (char_code c) - 48.

(** The value of the leading run of digits of [s], after [acc]. *)
Fixpoint leading_digits (acc : Z) (s : string) : Z :=
  match s with
  | EmptyString => acc
  | String c rest =>
      if is_digit c then leading_digits (10 * acc + digit_value c) rest
      else acc
  end.

(** [parseInt(s, 10)]: white space, an optional sign, then the longest
    run of digits; whatever follows the digits is ignored.  [None] is
    [NaN].  The value is kept exact: beyond 2^53 the source rounds, and
    every such quantity is outside the range of [Date] anyway. *)
Definition parseInt (s : string) : option Z :=
  let s := trimStart s in
  let '(sign, s) :=
    match s with
    | String "-" rest => (-1, rest)
    | String "+" rest => (1, rest)
    | _ => (1, s)
    end in
  match s with
  | EmptyString => None
  | String c _ =>
      if is_digit c then Some (sign * leading_digits 0 s) else None
  end.

Fixpoint decimal_digits (fuel : nat) (n : Z) : string :=
  match fuel with
  | O => EmptyString
  | S fuel' =>
      if n <? 10 then String (digit_char n) EmptyString
      else decimal_digits fuel' (n / 10) ++ String (digit_char n) EmptyString
  end.

(** [n.toString()] for an integer [n >= 0]; a number below 2^(k+1) has
    at most [k+1] decimal digits. *)
Definition Number_toString (n : Z) : string :=
  decimal_digits (S (Z.to_nat (Z.log2 n))) n.

Fixpoint repeat_char (c : ascii) (n : nat) : string :=
  match n with
  | O => EmptyString
  | S n' => String c (repeat_char c n')
  end.

(** [s.padStart(targetLength, "0")] *)
Definition padStart0 (s : string) (targetLength : nat) : string :=
  repeat_char "0" (targetLength - String.length s) ++ s.

(** ** The calendar of [Date]

    A [Date] is kept as the number of its local calendar day, counted
    from 1970-01-01.  The time of day plays no part in the parser but
    at the two ends of what [Date] holds: its time value is at most
    8.64e15 ms on either side of the epoch, which is 100,000,000 days,
    so the last instant it holds is 00:00:00.000 UTC of day
    100,000,000 and the first one 00:00:00.000 UTC of day
    -100,000,000.  [TimeClip] is that of a clock in UTC at a time of
    day after 00:00:00.000: day 100,000,000 is then beyond the limit
    and day -100,000,000 within it.  In another time zone the last and
    the first day that [Date] holds are up to a day off; the
    properties of the parser that depend on the limit keep two days
    away from both ends ([inside_Date_range]), where every time of day
    and time zone agree. *)

Inductive JSDate : Type :=
| ValidDate (day : Z)
| InvalidDate.

Definition MAX_DAY : Z := 100000000.

Definition TimeClip (day : Z) : JSDate :=
  if (- MAX_DAY <=? day) && (day <? MAX_DAY) then ValidDate day
  else InvalidDate.

(** Year, month (1..12) and day of month of a day number, in the
    proleptic Gregorian calendar; 400-year eras start on 1 March. *)
Definition civil_of_doe (doe : Z) : Z * Z * Z :=
  let yoe := (doe - doe / 1460 + doe / 36524 - doe / 146096) / 365 in
  let doy := doe - (365 * yoe + yoe / 4 - yoe / 100) in
  let mp := (5 * doy + 2) / 153 in
  let d := doy - (153 * mp + 2) / 5 + 1 in
  let m := if mp <? 10 then mp + 3 else mp - 9 in
  (if m <=? 2 then yoe + 1 else yoe, m, d).

Definition civil_from_days (day : Z) : Z * Z * Z :=
  let z := day + 719468 in
  let era := z / 146097 in
  let '(y, m, d) := civil_of_doe (z mod 146097) in
  (y + era * 400, m, d).

Definition doe_of_civil (yoe m d : Z) : Z :=
  let mp := if 2 <? m then m - 3 else m + 9 in
  let doy := (153 * mp + 2) / 5 + d - 1 in
  yoe * 365 + yoe / 4 - yoe / 100 + doy.

Definition days_from_civil (y m d : Z) : Z :=
  let y := if m <=? 2 then y - 1 else y in
  let era := y / 400 in
  era * 146097 + doe_of_civil (y mod 400) m d - 719468.

(** [date.getDay()]: 0 is Sunday; 1970-01-01 was a Thursday. *)
Definition getDay (day : Z) : Z := (day + 4) mod 7.

(** ** date-fns *)

(** [isLeapYearIndex] *)
Definition isLeapYearIndex (year : Z) : bool :=
  (year mod 400 =? 0) || ((year mod 4 =? 0) && negb (year mod 100 =? 0)).

(** [DAYS_IN_MONTH] and [DAYS_IN_MONTH_LEAP_YEAR], by month 1..12. *)
Definition days_in_month (year month : Z) : Z :=
  if month =? 2 then (if isLeapYearIndex year then 29 else 28)
  else if (month =? 4) || (month =? 6) || (month =? 9) || (month =? 11)
       then 30
       else 31.

(** [isValid] *)
Definition isValid (date : JSDate) : bool :=
  match date with
  | ValidDate _ => true
  | InvalidDate => false
  end.

(** [addDays]: [date.setDate(date.getDate() + amount)] *)
Definition addDays (date : JSDate) (amount : Z) : JSDate :=
  match date with
  | InvalidDate => InvalidDate
  | ValidDate day => if amount =? 0 then date else TimeClip (day + amount)
  end.

Record Duration : Type := { weeks : Z; days : Z }.

(** [add], for durations of days and weeks. *)
Definition add (date : JSDate) (duration : Duration) : JSDate :=
  if negb (days duration =? 0) || negb (weeks duration =? 0)
  then addDays date (days duration + weeks duration * 7)
  else date.

(** [nextDay] *)
Definition nextDay (date : JSDate) (day : Z) : JSDate :=
  match date with
  | InvalidDate => InvalidDate
  | ValidDate today =>
      let delta := day - getDay today in
      let delta := if delta <=? 0 then delta + 7 else delta in
      addDays date delta
  end.

Definition nextMonday (date : JSDate) : JSDate := nextDay date 1.
Definition nextTuesday (date : JSDate) : JSDate := nextDay date 2.
Definition nextWednesday (date : JSDate) : JSDate := nextDay date 3.
Definition nextThursday (date : JSDate) : JSDate := nextDay date 4.
Definition nextFriday (date : JSDate) : JSDate := nextDay date 5.
Definition nextSaturday (date : JSDate) : JSDate := nextDay date 6.
Definition nextSunday (date : JSDate) : JSDate := nextDay date 0.

(** [addLeadingZeros], for a number that is not negative. *)
Definition addLeadingZeros (number : Z) (targetLength : nat) : string :=
  padStart0 (Number_toString number) targetLength.

(** The text of [format(_, 'yyyy-MM-dd')] for a calendar day; the token
    [yyyy] prints the year of the era, [1 - year] for a year up to 0. *)
Definition format_day (day : Z) : string :=
  let '(signedYear, month, date) := civil_from_days day in
  let year := if 0 <? signedYear then signedYear else 1 - signedYear in
  addLeadingZeros year 4 ++ "-" ++ addLeadingZeros month 2
    ++ "-" ++ addLeadingZeros date 2.

(** [format(date, 'yyyy-MM-dd')] *)
Definition format (date : JSDate) : Completion string :=
  match date with
  | InvalidDate => Throw (JSErrorObj "RangeError" "Invalid time value")
  | ValidDate day => Return (format_day day)
  end.

(** At most [n] leading digits of [s], and what follows them. *)
Fixpoint take_digits (n : nat) (s : string) : string * string :=
  match n, s with
  | S n', String c rest =>
      if is_digit c then
        let '(ds, rest') := take_digits n' rest in (String c ds, rest')
      else (EmptyString, s)
  | _, _ => (EmptyString, s)
  end.

(** [parseNDigits]: the pattern [/^\d{1,n}/] *)
Definition parseNDigits (n : nat) (dateString : string)
  : option (Z * string) :=
  let '(ds, rest) := take_digits n dateString in
  if is_empty ds then None else Some (leading_digits 0 ds, rest).

Definition expect_hyphen (s : string) : option string :=
  match s with
  | String "-" rest => Some rest
  | _ => None
  end.

(** [parse(dateString, 'yyyy-MM-dd', new Date())]: the tokens are read
    in turn; the year has to be positive, the month in 1..12 and the
    day within the month of that year; nothing may be left over. *)
Definition parse_yyyy_MM_dd (dateString : string) : JSDate :=
  match parseNDigits 4 dateString with
  | None => InvalidDate
  | Some (year, rest) =>
      match expect_hyphen rest with
      | None => InvalidDate
      | Some rest =>
          match parseNDigits 2 rest with
          | None => InvalidDate
          | Some (month, rest) =>
              match expect_hyphen rest with
              | None => InvalidDate
              | Some rest =>
                  match parseNDigits 2 rest with
                  | None => InvalidDate
                  | Some (date, rest) =>
                      if is_empty rest
                         && (0 <? year)
                         && (1 <=? month) && (month <=? 12)
                         && (1 <=? date)
                         && (date <=? days_in_month year month)
                      then TimeClip (days_from_civil year month date)
                      else InvalidDate
                  end
              end
          end
      end
  end.

(** ** lib/date-parser.ts *)

(** [table[key]] on an object literal.  A key that is not an own
    property is looked up in [Object.prototype]; the keys that reach
    the tables are lower-case words, and of the inherited properties
    only [constructor] and [__proto__] are spelled that way. *)
Inductive Lookup (V : Type) : Type :=
| Own (v : V)
| ObjectConstructor
| ObjectPrototype
| Undefined.

Arguments Own {V} v.
Arguments ObjectConstructor {V}.
Arguments ObjectPrototype {V}.
Arguments Undefined {V}.

Fixpoint own_property {V : Type} (table : list (string * V)) (key : string)
  : option V :=
  match table with
  | [] => None
  | (k, v) :: rest => if String.eqb k key then Some v else own_property rest key
  end.

Definition object_get {V : Type} (table : list (string * V)) (key : string)
  : Lookup V :=
  match own_property table key with
  | Some v => Own v
  | None =>
      if String.eqb key "constructor" then ObjectConstructor
      else if String.eqb key "__proto__" then ObjectPrototype
      else Undefined
  end.

Definition WORD_TO_NUMBER : list (string * Z) :=
  [("one", 1); ("two", 2); ("three", 3); ("four", 4); ("five", 5);
   ("six", 6); ("seven", 7); ("eight", 8); ("nine", 9); ("ten", 10)].

Definition DAY_FUNCTIONS : list (string * (JSDate -> JSDate)) :=
  [("monday", nextMonday); ("tuesday", nextTuesday);
   ("wednesday", nextWednesday); ("thursday", nextThursday);
   ("friday", nextFriday); ("saturday", nextSaturday);
   ("sunday", nextSunday)].

(** What [WORD_TO_NUMBER[quantityStr] || parseInt(quantityStr, 10)] can
    be: a number, [NaN], or one of the two inherited objects. *)
Inductive Quantity : Type :=
| QNumber (n : Z)
| QNaN
| QObject.

Definition quantity_of (quantityStr : string) : Quantity :=
  let parsed :=
    match parseInt quantityStr with
    | Some n => QNumber n
    | None => QNaN
    end in
  match object_get WORD_TO_NUMBER quantityStr with
  | Own n => if n =? 0 then parsed else QNumber n
  | ObjectConstructor | ObjectPrototype => QObject
  | Undefined => parsed
  end.

(** [isNaN(quantity)]: an object converts to [NaN]. *)
Definition isNaN (quantity : Quantity) : bool :=
  match quantity with
  | QNumber _ => false
  | QNaN | QObject => true
  end.

Definition number_of (quantity : Quantity) : Z :=
  match quantity with
  | QNumber n => n
  | QNaN | QObject => 0
  end.

(** [{ [unit.startsWith('week') ? 'weeks' : 'days']: quantity }] *)
Definition duration_of (unit : string) (quantity : Z) : Duration :=
  if startsWith unit "week" then {| weeks := quantity; days := 0 |}
  else {| weeks := 0; days := quantity |}.

Definition unable_to_parse (input : string) : JSValue :=
  new_Error ("Unable to parse date: " ++ input).

(** [parseHumanDate]; [today] is the calendar day of [new Date()]. *)
Definition parseHumanDate (today : Z) (input : string) : Completion string :=
  let normalized := toLowerCase (trim input) in
  if is_empty normalized then Throw (new_Error "Unable to parse date: ")
  else
  match String_match normalized isoDate_re with
  | Some _ =>
      let parsed := parse_yyyy_MM_dd normalized in
      if negb (isValid parsed) then Throw (unable_to_parse input)
      else Return normalized
  | None =>
  let now := ValidDate today in
  if String.eqb normalized "today" then format now
  else if String.eqb normalized "tomorrow" then
    format (add now {| weeks := 0; days := 1 |})
  else if String.eqb normalized "yesterday" then
    format (add now {| weeks := 0; days := -1 |})
  else if String.eqb normalized "next week" then format (nextMonday now)
  else
  (* [if (nextDayMatch) { ... }]: [Some] when the block returns or
     throws, [None] when control leaves it *)
  match
    match String_match normalized nextDay_re with
    | Some nextDayMatch =>
        let dayName := group nextDayMatch 1 in
        match object_get DAY_FUNCTIONS dayName with
        | Own dayFunction => Some (format (dayFunction now))
        | ObjectConstructor => Some (format now)
        | ObjectPrototype =>
            Some (Throw (JSErrorObj "TypeError"
                           "dayFunction is not a function"))
        | Undefined => None
        end
    | None => None
    end
  with
  | Some completion => completion
  | None =>
  match String_match normalized fromNow_re with
  | Some fromNowMatch =>
      let quantityStr := group fromNowMatch 1 in
      let unit := group fromNowMatch 2 in
      let quantity := quantity_of quantityStr in
      if isNaN quantity then Throw (unable_to_parse input)
      else format (add now (duration_of unit (number_of quantity)))
  | None =>
  match String_match normalized addition_re with
  | Some additionMatch =>
      let quantityStr := group additionMatch 1 in
      let unit := group additionMatch 2 in
      match parseInt quantityStr with
      | None => Throw (unable_to_parse input)
      | Some quantity => format (add now (duration_of unit quantity))
      end
  | None => Throw (unable_to_parse input)
  end
  end
  end
  end.

(** ** lib/llm/tools/date-parser.ts *)

(** [input.trim()] on a value that is not a string (the wording of the
    messages is that of V8). *)
Definition trim_TypeError (input : JSValue) : JSValue :=
  match input with
  | JSUndefined =>
      JSErrorObj "TypeError"
        "Cannot read properties of undefined (reading 'trim')"
  | JSNull =>
      JSErrorObj "TypeError" "Cannot read properties of null (reading 'trim')"
  | _ => JSErrorObj "TypeError" "input.trim is not a function"
  end.

Definition parseHumanDate_of_value (today : Z) (input : JSValue)
  : Completion string :=
  match input with
  | JSString s => parseHumanDate today s
  | _ => Throw (trim_TypeError input)
  end.

Definition dateParserTool (today : Z) : ToolDefinition.t :=
  {| ToolDefinition.name := "parse_date";
     ToolDefinition.description :=
       "Converts human-readable date strings into YYYY-MM-DD format. "
       ++ "Supports formats like " ++ dquote ++ "today" ++ dquote ++ ", "
       ++ dquote ++ "tomorrow" ++ dquote ++ ", "
       ++ dquote ++ "two days from now" ++ dquote ++ ", "
       ++ dquote ++ "today + 2 days" ++ dquote ++ ", "
       ++ dquote ++ "next week" ++ dquote ++ ", "
       ++ dquote ++ "next Friday" ++ dquote ++ ", etc.";
     ToolDefinition.parameters :=
       {| ParameterSchema.type := "object";
          ParameterSchema.properties :=
            [("dateString",
              JSObject
                [("type", JSString "string");
                 ("description",
                  JSString
                    ("Human-readable date string to parse (e.g., "
                     ++ dquote ++ "today" ++ dquote ++ ", "
                     ++ dquote ++ "next week" ++ dquote ++ ", "
                     ++ dquote ++ "2 days from now" ++ dquote ++ ")"))])];
          ParameterSchema.required := Some ["dateString"] |};
     ToolDefinition.execute := fun params =>
       let dateString := bag_get params "dateString" in
       try_catch
         (parsedDate <- parseHumanDate_of_value today dateString ;;
          Return (JSObject [("success", JSBool true);
                            ("date", JSString parsedDate);
                            ("originalInput", dateString)]))
         (fun error =>
            Return (JSObject
                      [("success", JSBool false);
                       ("error", JSString (error_message_or_unknown error));
                       ("originalInput", dateString)])) |}.

(** The clock of the test suite: Tuesday 2025-11-18. *)
Definition frozen_today : Z := 20410.

(** * Vocabulary of the properties *)

(** The result [executeTool] builds in its [catch] block. *)
Definition failure_result (clock : PerformanceReadings)
  (invocation : ToolInvocation.t) (message : string) : ToolResult.t :=
  {| ToolResult.id := ToolInvocation.id invocation;
     ToolResult.name := ToolInvocation.name invocation;
     ToolResult.result := None;
     ToolResult.error := Some message;
     ToolResult.durationMs :=
       Some (Math_round (endTime clock - startTime clock)%Q) |}.

(** The result [executeTool] builds after the handler has returned. *)
Definition success_result (clock : PerformanceReadings)
  (invocation : ToolInvocation.t) (value : JSValue) : ToolResult.t :=
  {| ToolResult.id := ToolInvocation.id invocation;
     ToolResult.name := ToolInvocation.name invocation;
     ToolResult.result := Some value;
     ToolResult.error := None;
     ToolResult.durationMs :=
       Some (Math_round (endTime clock - startTime clock)%Q) |}.

(** The result that [executeTool] returns. *)
Definition executeTool_result (toolRegistry : ToolRegistry.t)
  (clock : PerformanceReadings) (invocation : ToolInvocation.t)
  : ToolResult.t :=
  match executeTool toolRegistry clock invocation with
  | Return r => r
  | Throw _ => failure_result clock invocation "Unknown error"
  end.

Fixpoint all_chars (f : ascii -> bool) (s : string) : bool :=
  match s with
  | EmptyString => true
  | String c rest => f c && all_chars f rest
  end.

(** [rest] does not go on with a character of the class [a]. *)
Definition stops (a : atom) (rest : string) : Prop :=
  match rest with
  | EmptyString => True
  | String c _ => atom_test a c = false
  end.

(** [lang r p caps caps']: the pattern [r] can take the text [p], and
    doing so turns the captures [caps] into [caps']. *)
Fixpoint lang (r : regex) (p : string) (caps caps' : captures) : Prop :=
  match r with
  | One a =>
      (exists c, p = String c EmptyString /\ atom_test a c = true)
      /\ caps' = caps
  | Star a => all_chars (atom_test a) p = true /\ caps' = caps
  | Plus a =>
      (p <> EmptyString /\ all_chars (atom_test a) p = true) /\ caps' = caps
  | Repeat n a =>
      (String.length p = n /\ all_chars (atom_test a) p = true)
      /\ caps' = caps
  | Opt r1 => (p = EmptyString /\ caps' = caps) \/ lang r1 p caps caps'
  | Cat r1 r2 =>
      exists p1 p2 caps1,
        p = p1 ++ p2 /\ lang r1 p1 caps caps1 /\ lang r2 p2 caps1 caps'
  | Alt r1 r2 => lang r1 p caps caps' \/ lang r2 p caps caps'
  | Group r1 => exists caps1, lang r1 p caps caps1 /\ caps' = (caps1 ++ [p])%list
  | Eps => p = EmptyString /\ caps' = caps
  end.

(** [first_match r s rest caps caps']: at the position [s], the first
    way for [r] to let the rest of the pattern succeed ends at the
    position [rest] and turns the captures [caps] into [caps']. *)
Definition first_match (r : regex) (s rest : string) (caps caps' : captures)
  : Prop :=
  forall k res, k rest caps' = Some res -> match_k r s caps k = Some res.

(** [check_range f k lo]: [f] holds on the [2^k] integers from [lo]. *)
Fixpoint check_range (f : Z -> bool) (k : nat) (lo : Z) : bool :=
  match k with
  | O => f lo
  | S k' => check_range f k' lo && check_range f k' (lo + 2 ^ Z.of_nat k')
  end.

(** What the conversion of a day of a 400-year era has to satisfy: a
    month and a day of that month, and the way back to the day. *)
Definition doe_ok (doe : Z) : bool :=
  let '(y, m, d) := civil_of_doe doe in
  let yoe := if m <=? 2 then y - 1 else y in
  (1 <=? m) && (m <=? 12) && (1 <=? d) && (d <=? days_in_month y m)
  && (0 <=? yoe) && (yoe <=? 399) && (doe_of_civil yoe m d =? doe)
  && ((doe <? 306) || (1 <=? y))
  && ((146036 <? doe) || (y <=? 399)).

Definition doe_ok_in_era (doe : Z) : bool :=
  (doe <? 0) || (146097 <=? doe) || doe_ok doe.

(** The text YYYY-MM-DD of eight digit characters. *)
Definition iso_chars (y1 y2 y3 y4 m1 m2 d1 d2 : ascii) : string :=
  String y1 (String y2 (String y3 (String y4 (String "-"
    (String m1 (String m2 (String "-"
      (String d1 (String d2 EmptyString))))))))).

Definition four_digits (n : Z) : string :=
  String (digit_char (n / 1000)) (String (digit_char (n / 100))
    (String (digit_char (n / 10)) (String (digit_char n) EmptyString))).

Definition two_digits (n : Z) : string :=
  String (digit_char (n / 10)) (String (digit_char n) EmptyString).

(** The text YYYY-MM-DD of a year 0..9999, a month and a day. *)
Definition iso_text (y m d : Z) : string :=
  four_digits y ++ "-" ++ two_digits m ++ "-" ++ two_digits d.

(** A date of the calendar that YYYY-MM-DD can write: a year 1..9999,
    a month 1..12 and a day of that month (there is no year 0). *)
Definition valid_calendar_date (y m d : Z) : Prop :=
  1 <= y <= 9999 /\ 1 <= m <= 12 /\ 1 <= d <= days_in_month y m.

Definition value4 (c1 c2 c3 c4 : ascii) : Z :=
  1000 * digit_value c1 + 100 * digit_value c2
  + 10 * digit_value c3 + digit_value c4.

Definition value2 (c1 c2 : ascii) : Z := 10 * digit_value c1 + digit_value c2.

Definition pads_ok4 (y : Z) : bool :=
  (y <? 0) || (9999 <? y) || String.eqb (addLeadingZeros y 4) (four_digits y).

Definition pads_ok2 (m : Z) : bool :=
  (m <? 0) || (99 <? m) || String.eqb (addLeadingZeros m 2) (two_digits m).

(** The checks [parse] makes on the numbers of a YYYY-MM-DD text. *)
Definition valid_date_b (y m d : Z) : bool :=
  (0 <? y) && (1 <=? m) && (m <=? 12) && (1 <=? d)
  && (d <=? days_in_month y m).

(** A run of word characters, a run of white space, a unit. *)
Definition word_token (q : string) : Prop :=
  q <> EmptyString /\ all_chars is_word_char q = true.

Definition spaces (ws : string) : Prop :=
  ws <> EmptyString /\ all_chars is_whitespace ws = true.

Definition unit_word (u : string) : Prop :=
  u = "day" \/ u = "days" \/ u = "week" \/ u = "weeks".

(** The phrase "<quantity> <unit> from now". *)
Definition fromNow_phrase (q ws1 u ws2 ws3 : string) : string :=
  q ++ ws1 ++ u ++ ws2 ++ "from" ++ ws3 ++ "now".

(** What is left of [s] after its leading characters of class [a]. *)
Fixpoint skip (a : atom) (s : string) : string :=
  match s with
  | EmptyString => EmptyString
  | String c rest => if atom_test a c then skip a rest else s
  end.

(** What follows the first word, the white space after it and the
    second word. *)
Definition after_two_words (s : string) : string :=
  skip Word (skip Space (skip Word s)).

(** The quantity tokens of the specification. *)
Definition number_word (q : string) : bool :=
  match own_property WORD_TO_NUMBER q with
  | Some _ => true
  | None => false
  end.

Definition digit_string (q : string) : bool :=
  negb (is_empty q) && all_chars is_digit q.

Definition starts_with_digit (q : string) : bool :=
  match q with
  | EmptyString => false
  | String c _ => is_digit c
  end.

(** The decimal value of a digit string. *)
Definition decimal_value (q : string) : Z := leading_digits 0 q.

(** The days that a quantity of a unit adds. *)
Definition days_of (u : string) (quantity : Z) : Z :=
  if startsWith u "week" then quantity * 7 else quantity.

(** The names of the days with their numbers ([getDay]). *)
Definition weekdays : list (string * Z) :=
  [("monday", 1); ("tuesday", 2); ("wednesday", 3); ("thursday", 4);
   ("friday", 5); ("saturday", 6); ("sunday", 0)].

Definition weekday_name (w : string) : bool :=
  match own_property weekdays w with
  | Some _ => true
  | None => false
  end.

(** The lower-case keys that every object inherits. *)
Definition inherited_key (w : string) : bool :=
  String.eqb w "constructor" || String.eqb w "__proto__".

Definition keyword (n : string) : bool :=
  String.eqb n "today" || String.eqb n "tomorrow"
  || String.eqb n "yesterday" || String.eqb n "next week".

Definition is_none {A : Type} (o : option A) : bool :=
  match o with
  | Some _ => false
  | None => true
  end.

(** A normalized text that none of the five patterns recognizes.  Two
    kinds of text are set apart and not counted here: "next <key>" for
    an inherited key, and a quantity that begins with a digit. *)
Definition matches_no_pattern (n : string) : bool :=
  is_none (String_match n isoDate_re)
  && negb (keyword n)
  && match String_match n nextDay_re with
     | Some m => negb (weekday_name (group m 1))
                 && negb (inherited_key (group m 1))
     | None => true
     end
  && match String_match n fromNow_re with
     | Some m => negb (number_word (group m 1))
                 && negb (starts_with_digit (group m 1))
     | None => true
     end
  && is_none (String_match n addition_re).

(** A day within 100,000,000 days of the epoch. *)
Definition in_Date_range (day : Z) : Prop := - MAX_DAY <= day <= MAX_DAY.

(** A day that [Date] holds whatever the time of day and the time zone
    of the clock: two days or more from both ends of its range. *)
Definition inside_Date_range (day : Z) : Prop :=
  - MAX_DAY + 2 <= day <= MAX_DAY - 2.

(** * Examples *)

(** The tool of lib/llm/executor.test.ts. *)
Definition mockTool : ToolDefinition.t :=
  {| ToolDefinition.name := "test_tool";
     ToolDefinition.description := "A test tool";
     ToolDefinition.parameters :=
       {| ParameterSchema.type := "object";
          ParameterSchema.properties :=
            [("message", JSObject [("type", JSString "string")])];
          ParameterSchema.required := Some ["message"] |};
     ToolDefinition.execute := fun params =>
       Return (JSObject [("echo", bag_get params "message")]) |}.

(** A second definition under the name of [mockTool]. *)
Definition rivalTool : ToolDefinition.t :=
  {| ToolDefinition.name := "test_tool";
     ToolDefinition.description := "Another tool of the same name";
     ToolDefinition.parameters :=
       {| ParameterSchema.type := "object";
          ParameterSchema.properties := [];
          ParameterSchema.required := None |};
     ToolDefinition.execute := fun _ => Return JSNull |}.

(** A handler that throws an [Error], and one that throws a string. *)
Definition failingTool : ToolDefinition.t :=
  {| ToolDefinition.name := "failing_tool";
     ToolDefinition.description := "Always fails";
     ToolDefinition.parameters :=
       {| ParameterSchema.type := "object";
          ParameterSchema.properties := [];
          ParameterSchema.required := None |};
     ToolDefinition.execute := fun _ => Throw (new_Error "boom") |}.

Definition oddTool : ToolDefinition.t :=
  {| ToolDefinition.name := "odd_tool";
     ToolDefinition.description := "Throws a value that is not an Error";
     ToolDefinition.parameters :=
       {| ParameterSchema.type := "object";
          ParameterSchema.properties := [];
          ParameterSchema.required := None |};
     ToolDefinition.execute := fun _ => Throw (JSString "boom") |}.

Definition register_all (tools : list ToolDefinition.t) : ToolRegistry.t :=
  fold_left (fun this tool => snd (ToolRegistry.register this tool)) tools
    ToolRegistry.new.

Definition example_registry : ToolRegistry.t :=
  register_all [mockTool; failingTool; oddTool; dateParserTool frozen_today].

Definition example_clock : PerformanceReadings :=
  {| startTime := 10 # 1; endTime := 62 # 5 |}.

Definition invoke (id name : string) (parameters : ParameterBag)
  : ToolInvocation.t :=
  {| ToolInvocation.id := id;
     ToolInvocation.name := name;
     ToolInvocation.parameters := parameters |}.

(** * Further vocabulary *)

(** The registries that a program can build: the empty one, and what
    [register] leaves behind, whether the call returns or throws. *)
Inductive reachable : ToolRegistry.t -> Prop :=
| reachable_new : reachable ToolRegistry.new
| reachable_register this tool :
    reachable this -> reachable (snd (ToolRegistry.register this tool)).

(** lib/llm/index.ts: the two [register] statements of the module, run
    on the registry singleton; a throw of the first ends the module.
    The weather tool is a parameter (its handler draws random
    numbers). *)
Definition llm_index (weatherTool : ToolDefinition.t) (today : Z)
  (toolRegistry : ToolRegistry.t) : Completion unit * ToolRegistry.t :=
  match ToolRegistry.register toolRegistry weatherTool with
  | (Throw e, registry) => (Throw e, registry)
  | (Return _, registry) =>
      ToolRegistry.register registry (dateParserTool today)
  end.

(** What [executeTool] returns for a tool and its outcome. *)
Definition result_of_outcome (clock : PerformanceReadings)
  (invocation : ToolInvocation.t) (outcome : Completion JSValue)
  : ToolResult.t :=
  match outcome with
  | Return value => success_result clock invocation value
  | Throw e => failure_result clock invocation (error_message_or_unknown e)
  end.

(** A run of white space that may be empty. *)
Definition blanks (ws : string) : Prop := all_chars is_whitespace ws = true.

(** The phrase "today + <digits> <unit>". *)
Definition addition_phrase (ws1 ws2 q ws3 u : string) : string :=
  "today" ++ ws1 ++ "+" ++ ws2 ++ q ++ ws3 ++ u.
(** * Properties *)

(** ** The registry *)

Module JSMapFacts.
Section Facts.
Context {V : Type}.
Implicit Types (m : JSMap.t V) (k : string) (v : V).

Lemma get_set_same m k v : JSMap.get (JSMap.set m k v) k = Some v.
Proof.
  induction m as [|[k' v'] m IH]; simpl.
  - now rewrite String.eqb_refl.
  - destruct (String.eqb k' k) eqn:E; simpl; rewrite E; auto.
Qed.

Lemma get_set_other m k k' v :
  k <> k' -> JSMap.get (JSMap.set m k v) k' = JSMap.get m k'.
Proof.
  intros Hne. induction m as [|[k0 v0] m IH]; simpl.
  - destruct (String.eqb_spec k k'); [contradiction | reflexivity].
  - destruct (String.eqb_spec k0 k) as [->|Hk]; simpl.
    + destruct (String.eqb_spec k k'); [contradiction | reflexivity].
    + now rewrite IH.
Qed.

Lemma has_true_get m k : JSMap.has m k = true -> exists v, JSMap.get m k = Some v.
Proof. unfold JSMap.has. destruct (JSMap.get m k); eauto; discriminate. Qed.
End Facts.
End JSMapFacts.

(** Two registrations under one name: the second call throws and the
    first definition stays. *)
Lemma register_twice (this : ToolRegistry.t) (first second : ToolDefinition.t) :
  ToolRegistry.has this (ToolDefinition.name first) = false ->
  ToolDefinition.name second = ToolDefinition.name first ->
  let after_first := snd (ToolRegistry.register this first) in
  fst (ToolRegistry.register this first) = Return tt /\
  (exists e, ToolRegistry.register after_first second = (Throw e, after_first)) /\
  ToolRegistry.get after_first (ToolDefinition.name first) = Some first.
Proof.
  intros Hfresh Hname. unfold ToolRegistry.register, ToolRegistry.has in *.
  rewrite Hfresh. simpl. split; [reflexivity|].
  unfold ToolRegistry.get, JSMap.has. simpl. rewrite Hname.
  rewrite JSMapFacts.get_set_same. eauto.
Qed.

(** C4. Registering a definition whose name is taken throws, leaves the
    registry as it was, and [get] still returns the earlier definition. *)
Theorem register_duplicate_fails
  (this : ToolRegistry.t) (tool original : ToolDefinition.t) :
  ToolRegistry.get this (ToolDefinition.name tool) = Some original ->
  ToolRegistry.register this tool
  = (Throw (new_Error ("Tool " ++ dquote ++ ToolDefinition.name tool
                         ++ dquote ++ " is already registered")),
     this)
  /\ ToolRegistry.get (snd (ToolRegistry.register this tool))
       (ToolDefinition.name tool) = Some original.
Proof.
  intros Hget. unfold ToolRegistry.register, ToolRegistry.get, JSMap.has in *.
  rewrite Hget. simpl. split; [reflexivity | exact Hget].
Qed.

(** ** The executor *)

Lemma Math_round_nonneg (x : Q) : (0 <= x)%Q -> 0 <= Math_round x.
Proof.
  intros Hx. unfold Math_round.
  change 0 with (Qfloor 0). apply Qfloor_resp_le. lra.
Qed.

Lemma duration_nonneg (clock : PerformanceReadings) :
  monotonic clock -> 0 <= Math_round (endTime clock - startTime clock)%Q.
Proof. unfold monotonic. intros H. apply Math_round_nonneg. lra. Qed.

Section ExecuteTool.
Variable toolRegistry : ToolRegistry.t.
Variable clock : PerformanceReadings.
Variable invocation : ToolInvocation.t.

Lemma executeTool_not_found :
  ToolRegistry.get toolRegistry (ToolInvocation.name invocation) = None ->
  executeTool toolRegistry clock invocation
  = Return (failure_result clock invocation
              ("Tool " ++ dquote ++ ToolInvocation.name invocation
                 ++ dquote ++ " not found")).
Proof. intros H. unfold executeTool. now rewrite H. Qed.

Lemma executeTool_returned (tool : ToolDefinition.t) (value : JSValue) :
  ToolRegistry.get toolRegistry (ToolInvocation.name invocation) = Some tool ->
  ToolDefinition.execute tool (ToolInvocation.parameters invocation)
  = Return value ->
  executeTool toolRegistry clock invocation
  = Return (success_result clock invocation value).
Proof. intros H1 H2. unfold executeTool. rewrite H1. simpl. now rewrite H2. Qed.

Lemma executeTool_threw (tool : ToolDefinition.t) (e : JSValue) :
  ToolRegistry.get toolRegistry (ToolInvocation.name invocation) = Some tool ->
  ToolDefinition.execute tool (ToolInvocation.parameters invocation)
  = Throw e ->
  executeTool toolRegistry clock invocation
  = Return (failure_result clock invocation (error_message_or_unknown e)).
Proof. intros H1 H2. unfold executeTool. rewrite H1. simpl. now rewrite H2. Qed.

(** The three ways through [executeTool]. *)
Lemma executeTool_cases :
  (exists msg, executeTool toolRegistry clock invocation
               = Return (failure_result clock invocation msg))
  \/ (exists value, executeTool toolRegistry clock invocation
                    = Return (success_result clock invocation value)).
Proof.
  destruct (ToolRegistry.get toolRegistry (ToolInvocation.name invocation))
    as [tool|] eqn:Hget.
  - destruct (ToolDefinition.execute tool
                (ToolInvocation.parameters invocation)) as [v|e] eqn:Hrun.
    + right. eexists. eapply executeTool_returned; eauto.
    + left. eexists. eapply executeTool_threw; eauto.
  - left. eexists. now apply executeTool_not_found.
Qed.
End ExecuteTool.

(** C1. [executeTool] always returns a result and never throws.  When
    the handler found in the registry throws an [Error], the result's
    [error] is its message; when it throws any other value, [error] is
    the text [Unknown error]. *)
Theorem executeTool_never_throws
  (toolRegistry : ToolRegistry.t) (clock : PerformanceReadings)
  (invocation : ToolInvocation.t) :
  exists r,
    executeTool toolRegistry clock invocation = Return r
    /\ (forall tool ctor message,
          ToolRegistry.get toolRegistry (ToolInvocation.name invocation)
          = Some tool ->
          ToolDefinition.execute tool (ToolInvocation.parameters invocation)
          = Throw (JSErrorObj ctor message) ->
          ToolResult.error r = Some message)
    /\ (forall tool e,
          ToolRegistry.get toolRegistry (ToolInvocation.name invocation)
          = Some tool ->
          ToolDefinition.execute tool (ToolInvocation.parameters invocation)
          = Throw e ->
          instanceof_Error e = false ->
          ToolResult.error r = Some "Unknown error").
Proof.
  destruct (executeTool_cases toolRegistry clock invocation) as [[m H]|[v H]];
    eexists; (split; [exact H|]); split.
  - intros tool ctor message Hget Hrun.
    rewrite (executeTool_threw _ _ _ _ _ Hget Hrun) in H.
    injection H as H. rewrite <- H. reflexivity.
  - intros tool e Hget Hrun Hne.
    rewrite (executeTool_threw _ _ _ _ _ Hget Hrun) in H.
    injection H as H. rewrite <- H. simpl.
    destruct e; simpl in *; try reflexivity; discriminate.
  - intros tool ctor message Hget Hrun.
    rewrite (executeTool_threw _ _ _ _ _ Hget Hrun) in H. discriminate.
  - intros tool e Hget Hrun _.
    rewrite (executeTool_threw _ _ _ _ _ Hget Hrun) in H. discriminate.
Qed.

(** C3. Under a clock that does not run backwards every result of
    [executeTool] has exactly one of [result] and [error] defined, a
    [durationMs] that is an integer not below zero, and the [id] and
    [name] of the invocation. *)
Theorem executeTool_result_invariant
  (toolRegistry : ToolRegistry.t) (clock : PerformanceReadings)
  (invocation : ToolInvocation.t) :
  monotonic clock ->
  exists r,
    executeTool toolRegistry clock invocation = Return r
    /\ ((ToolResult.result r <> None /\ ToolResult.error r = None)
        \/ (ToolResult.result r = None /\ ToolResult.error r <> None))
    /\ (exists d, ToolResult.durationMs r = Some d /\ 0 <= d)
    /\ ToolResult.id r = ToolInvocation.id invocation
    /\ ToolResult.name r = ToolInvocation.name invocation.
Proof.
  intros Hclock.
  destruct (executeTool_cases toolRegistry clock invocation) as [[m H]|[v H]];
    eexists; (split; [exact H|]); simpl.
  - split; [right; split; [reflexivity | discriminate]|].
    split; [|split; reflexivity].
    eexists; split; [reflexivity | now apply duration_nonneg].
  - split; [left; split; [discriminate | reflexivity]|].
    split; [|split; reflexivity].
    eexists; split; [reflexivity | now apply duration_nonneg].
Qed.

(** C5. For a name that is not registered [executeTool] returns the
    failure result whose [error] is [Tool "<name>" not found], without
    a [result], and with a [durationMs] not below zero. *)
Theorem executeTool_unregistered
  (toolRegistry : ToolRegistry.t) (clock : PerformanceReadings)
  (invocation : ToolInvocation.t) :
  ToolRegistry.get toolRegistry (ToolInvocation.name invocation) = None ->
  monotonic clock ->
  exists r d,
    executeTool toolRegistry clock invocation = Return r
    /\ ToolResult.error r
       = Some ("Tool " ++ dquote ++ ToolInvocation.name invocation
                 ++ dquote ++ " not found")
    /\ ToolResult.result r = None
    /\ ToolResult.durationMs r = Some d
    /\ 0 <= d.
Proof.
  intros Hget Hclock. do 2 eexists.
  split; [now apply executeTool_not_found|]. simpl.
  repeat split. now apply duration_nonneg.
Qed.

(** ** The batch *)

Lemma Promise_all_Return {A B : Type} (f : nat -> A -> Completion B)
  (g : nat -> A -> B) :
  (forall i a, f i a = Return (g i a)) ->
  forall l i, Promise_all (map_from f i l) = Return (map_from g i l).
Proof.
  intros Hf. induction l as [|a l IH]; intros i; simpl; [reflexivity|].
  now rewrite Hf, IH.
Qed.

Lemma map_from_length {A B : Type} (g : nat -> A -> B) l :
  forall i, length (map_from g i l) = length l.
Proof. induction l; intros; simpl; auto. Qed.

Lemma map_from_nth_error {A B : Type} (g : nat -> A -> B) l :
  forall i n, nth_error (map_from g i l) n
              = option_map (g (i + n)%nat) (nth_error l n).
Proof.
  induction l as [|a l IH]; intros i [|n]; simpl; try reflexivity.
  - now rewrite Nat.add_0_r.
  - rewrite IH. now rewrite Nat.add_succ_r.
Qed.

Lemma executeTool_result_eq toolRegistry clock invocation :
  executeTool toolRegistry clock invocation
  = Return (executeTool_result toolRegistry clock invocation).
Proof.
  unfold executeTool_result.
  destruct (executeTool_cases toolRegistry clock invocation) as [[m H]|[v H]];
    now rewrite H.
Qed.

(** C2. [executeTools] returns as many results as there are
    invocations; the result at an index is what [executeTool] returns
    for the invocation at that index; and the result at an index is the
    same in any other batch that has the same invocation there. *)
Theorem executeTools_positional
  (toolRegistry : ToolRegistry.t) (clocks : nat -> PerformanceReadings)
  (invocations : list ToolInvocation.t) :
  exists results,
    executeTools toolRegistry clocks invocations = Return results
    /\ length results = length invocations
    /\ (forall i invocation,
          nth_error invocations i = Some invocation ->
          exists r, nth_error results i = Some r
                    /\ executeTool toolRegistry (clocks i) invocation
                       = Return r)
    /\ (forall others i,
          nth_error others i = nth_error invocations i ->
          exists results',
            executeTools toolRegistry clocks others = Return results'
            /\ nth_error results' i = nth_error results i).
Proof.
  pose (g := fun i => executeTool_result toolRegistry (clocks i)).
  assert (Hall : forall l, executeTools toolRegistry clocks l
                           = Return (map_from g 0%nat l)).
  { intros l. unfold executeTools. apply Promise_all_Return.
    intros i a. apply executeTool_result_eq. }
  exists (map_from g 0%nat invocations). split; [apply Hall|].
  split; [apply map_from_length|]. split.
  - intros i invocation Hi. exists (g i invocation). split.
    + rewrite map_from_nth_error, Hi. reflexivity.
    + apply executeTool_result_eq.
  - intros others i Hi. exists (map_from g 0%nat others).
    split; [apply Hall|]. now rewrite !map_from_nth_error, Hi.
Qed.

(** ** Strings *)

Lemma append_nil_r (s : string) : s ++ EmptyString = s.
Proof. induction s; simpl; congruence. Qed.

Lemma append_assoc (a b c : string) : (a ++ b) ++ c = a ++ (b ++ c).
Proof. induction a; simpl; congruence. Qed.

Lemma length_append (a b : string) :
  String.length (a ++ b) = (String.length a + String.length b)%nat.
Proof. induction a; simpl; congruence. Qed.

Lemma is_empty_true (s : string) : is_empty s = true -> s = EmptyString.
Proof. destruct s; [reflexivity | discriminate]. Qed.

Lemma substring_prefix (p rest : string) :
  substring 0 (String.length p) (p ++ rest) = p.
Proof.
  induction p as [|c p IH]; simpl.
  - destruct rest; reflexivity.
  - now rewrite IH.
Qed.

Lemma consumed_append (p rest : string) : consumed (p ++ rest) rest = p.
Proof.
  unfold consumed. rewrite length_append.
  replace (String.length p + String.length rest - String.length rest)%nat
    with (String.length p) by lia.
  apply substring_prefix.
Qed.

Lemma all_chars_append f a b :
  all_chars f (a ++ b) = all_chars f a && all_chars f b.
Proof. induction a; simpl; [reflexivity|]. now rewrite IHa, andb_assoc. Qed.

(** ** The matcher *)

Section MatcherFacts.
Context {R : Type}.
Implicit Types (k : string -> option R).

Lemma star_k_sound a s k res :
  star_k a s k = Some res ->
  exists p rest, s = p ++ rest /\ all_chars (atom_test a) p = true
                 /\ k rest = Some res.
Proof.
  induction s as [|c s IH]; simpl; intros H.
  - exists EmptyString, EmptyString. auto.
  - destruct (atom_test a c) eqn:Hc.
    + destruct (star_k a s k) as [r|] eqn:Hs.
      * destruct (IH H) as (p & rest & -> & Hp & Hk) .
        exists (String c p), rest. simpl. rewrite Hc. auto.
      * exists EmptyString, (String c s). auto.
    + exists EmptyString, (String c s). auto.
Qed.

Lemma repeat_k_sound a n : forall s k res,
  repeat_k n a s k = Some res ->
  exists p rest, s = p ++ rest /\ String.length p = n
                 /\ all_chars (atom_test a) p = true /\ k rest = Some res.
Proof.
  induction n as [|n IH]; simpl; intros s k res H.
  - exists EmptyString, s. auto.
  - destruct s as [|c s]; [discriminate|].
    destruct (atom_test a c) eqn:Hc; [|discriminate].
    destruct (IH _ _ _ H) as (p & rest & -> & Hl & Hp & Hk).
    exists (String c p), rest. simpl. rewrite Hc, Hl. auto.
Qed.

(** A greedy repetition takes the whole run when what follows the
    run lets the rest of the pattern succeed. *)
Lemma star_k_first a p rest k res :
  all_chars (atom_test a) p = true -> k rest = Some res ->
  stops a rest ->
  star_k a (p ++ rest) k = Some res.
Proof.
  intros Hp Hk Hstop. induction p as [|c p IH]; simpl in *.
  - destruct rest as [|c rest]; simpl in *; [assumption|].
    now rewrite Hstop.
  - apply andb_prop in Hp as [Hc Hp]. rewrite Hc, (IH Hp). reflexivity.
Qed.

Lemma repeat_k_first a p rest k :
  all_chars (atom_test a) p = true ->
  repeat_k (String.length p) a (p ++ rest) k = k rest.
Proof.
  induction p as [|c p IH]; simpl; intros Hp; [reflexivity|].
  apply andb_prop in Hp as [Hc Hp]. rewrite Hc. auto.
Qed.
End MatcherFacts.

Lemma match_k_sound r : forall s caps k res,
  match_k r s caps k = Some res ->
  exists p rest caps',
    s = p ++ rest /\ lang r p caps caps' /\ k rest caps' = Some res.
Proof.
  induction r; simpl; intros s caps k res H.
  - destruct s as [|c s]; [discriminate|].
    destruct (atom_test a c) eqn:Hc; [|discriminate].
    exists (String c EmptyString), s, caps. simpl. eauto 7.
  - apply star_k_sound in H as (p & rest & -> & Hp & Hk). eauto 7.
  - destruct s as [|c s]; [discriminate|].
    destruct (atom_test a c) eqn:Hc; [|discriminate].
    apply star_k_sound in H as (p & rest & -> & Hp & Hk).
    exists (String c p), rest, caps. simpl. rewrite Hc, Hp.
    repeat split; auto. discriminate.
  - apply repeat_k_sound in H as (p & rest & -> & Hl & Hp & Hk). eauto 8.
  - destruct (match_k r s caps k) as [res'|] eqn:Hr.
    + destruct (IHr _ _ _ _ Hr) as (p & rest & caps' & -> & Hp & Hk).
      injection H as <-. eauto 7.
    + exists EmptyString, s, caps. auto.
  - destruct (IHr1 _ _ _ _ H) as (p1 & rest1 & caps1 & -> & Hp1 & Hk1).
    destruct (IHr2 _ _ _ _ Hk1) as (p2 & rest2 & caps2 & -> & Hp2 & Hk2).
    exists (p1 ++ p2), rest2, caps2. rewrite append_assoc. eauto 8.
  - destruct (match_k r1 s caps k) as [res'|] eqn:Hr.
    + destruct (IHr1 _ _ _ _ Hr) as (p & rest & caps' & -> & Hp & Hk).
      injection H as <-. eauto 7.
    + destruct (IHr2 _ _ _ _ H) as (p & rest & caps' & -> & Hp & Hk).
      eauto 7.
  - destruct (IHr _ _ _ _ H) as (p & rest & caps' & -> & Hp & Hk).
    rewrite consumed_append in Hk. eauto 8.
  - exists EmptyString, s, caps. auto.
Qed.

(** A text that matches is taken whole by the pattern, which leaves the
    captures that [match] returns. *)
Lemma String_match_sound s r caps :
  String_match s r = Some caps -> lang r s [] caps.
Proof.
  unfold String_match. intros H.
  apply match_k_sound in H as (p & rest & caps' & -> & Hp & Hk).
  destruct rest; [|discriminate]. simpl in Hk. injection Hk as <-.
  now rewrite append_nil_r.
Qed.

Section FirstMatch.
Implicit Types (r : regex) (s p rest : string) (caps : captures).

Lemma fm_eps s caps : first_match Eps s s caps caps.
Proof. intros k res Hk. exact Hk. Qed.

Lemma fm_cat r1 r2 s mid rest caps caps1 caps2 :
  first_match r1 s mid caps caps1 ->
  first_match r2 mid rest caps1 caps2 ->
  first_match (Cat r1 r2) s rest caps caps2.
Proof. intros H1 H2 k res Hk. simpl. apply H1. now apply H2. Qed.

Lemma fm_lit w rest caps : first_match (lit w) (w ++ rest) rest caps caps.
Proof.
  induction w as [|c w IH]; intros k res Hk; simpl.
  - exact Hk.
  - rewrite Ascii.eqb_refl. now apply IH.
Qed.

Lemma fm_group r p rest caps caps' :
  first_match r (p ++ rest) rest caps caps' ->
  first_match (Group r) (p ++ rest) rest caps (caps' ++ [p])%list.
Proof.
  intros H k res Hk. simpl. apply H. now rewrite consumed_append.
Qed.

Lemma fm_repeat a p rest caps :
  all_chars (atom_test a) p = true ->
  first_match (Repeat (String.length p) a) (p ++ rest) rest caps caps.
Proof. intros Hp k res Hk. simpl. now rewrite repeat_k_first. Qed.

Lemma fm_star a p rest caps :
  all_chars (atom_test a) p = true -> stops a rest ->
  first_match (Star a) (p ++ rest) rest caps caps.
Proof. intros Hp Hs k res Hk. simpl. now apply star_k_first. Qed.

Lemma fm_plus a p rest caps :
  p <> EmptyString -> all_chars (atom_test a) p = true -> stops a rest ->
  first_match (Plus a) (p ++ rest) rest caps caps.
Proof.
  intros Hne Hp Hs k res Hk. destruct p as [|c p]; [contradiction|].
  simpl in *. apply andb_prop in Hp as [Hc Hp]. rewrite Hc.
  now apply star_k_first.
Qed.

Lemma String_match_first r s caps' :
  first_match r s EmptyString [] caps' -> String_match s r = Some caps'.
Proof. intros H. unfold String_match. now apply H. Qed.
End FirstMatch.

(** ** The calendar *)

Lemma check_range_spec f k : forall lo,
  check_range f k lo = true ->
  forall x, lo <= x < lo + 2 ^ Z.of_nat k -> f x = true.
Proof.
  induction k as [|k IH]; intros lo H x Hx.
  - simpl in *. replace x with lo by lia. exact H.
  - simpl check_range in H. apply andb_prop in H as [H1 H2].
    rewrite Nat2Z.inj_succ, Z.pow_succ_r in Hx by lia.
    destruct (Z_lt_le_dec x (lo + 2 ^ Z.of_nat k)).
    + apply (IH lo H1). lia.
    + apply (IH _ H2). lia.
Qed.

Lemma doe_ok_all doe : 0 <= doe < 146097 -> doe_ok doe = true.
Proof.
  intros Hd.
  assert (H : check_range doe_ok_in_era 18 0 = true)
    by (vm_cast_no_check (eq_refl true)).
  pose proof (check_range_spec _ _ _ H doe) as Hx.
  unfold doe_ok_in_era in Hx.
  destruct (Z.ltb_spec doe 0); [lia|].
  destruct (Z.leb_spec 146097 doe); [lia|].
  cbn [orb] in Hx.
  apply Hx. change (2 ^ Z.of_nat 18) with 262144. lia.
Qed.

Lemma isLeapYearIndex_period y era :
  isLeapYearIndex (y + era * 400) = isLeapYearIndex y.
Proof.
  unfold isLeapYearIndex.
  rewrite Z.mod_add by lia.
  replace (era * 400) with (era * 100 * 4) at 1 by lia.
  rewrite Z.mod_add by lia.
  replace (era * 400) with (era * 4 * 100) by lia.
  rewrite Z.mod_add by lia. reflexivity.
Qed.

Lemma days_in_month_period y era m :
  days_in_month (y + era * 400) m = days_in_month y m.
Proof. unfold days_in_month. now rewrite isLeapYearIndex_period. Qed.

Ltac decode_doe_ok H :=
  repeat rewrite andb_true_iff in H;
  destruct H as [[[[[[[[Hm1 Hm12] Hd1] Hdim] Hyoe0] Hyoe399] Hback] Hlow] Hhigh];
  apply Z.leb_le in Hm1, Hm12, Hd1, Hdim, Hyoe0, Hyoe399;
  apply Z.eqb_eq in Hback;
  rewrite orb_true_iff, Z.ltb_lt, Z.leb_le in Hlow, Hhigh.

(** Every day number is a month 1..12 and a day of that month. *)
Lemma civil_from_days_valid day y m d :
  civil_from_days day = (y, m, d) ->
  1 <= m <= 12 /\ 1 <= d <= days_in_month y m.
Proof.
  unfold civil_from_days.
  pose proof (Z.mod_pos_bound (day + 719468) 146097 ltac:(lia)) as Hb.
  pose proof (doe_ok_all _ Hb) as Hok. unfold doe_ok in Hok.
  destruct (civil_of_doe ((day + 719468) mod 146097)) as [[y0 m0] d0].
  intros [= <- <- <-]. rewrite days_in_month_period.
  decode_doe_ok Hok. lia.
Qed.

(** The conversions are inverse: a day number is found back from its
    year, month and day. *)
Lemma days_from_civil_from_days day y m d :
  civil_from_days day = (y, m, d) -> days_from_civil y m d = day.
Proof.
  unfold civil_from_days, days_from_civil.
  pose proof (Z.mod_pos_bound (day + 719468) 146097 ltac:(lia)) as Hb.
  pose proof (doe_ok_all _ Hb) as Hok. unfold doe_ok in Hok.
  pose proof (Z.div_mod (day + 719468) 146097 ltac:(lia)) as Hdm.
  destruct (civil_of_doe ((day + 719468) mod 146097)) as [[y0 m0] d0].
  intros [= <- <- <-]. decode_doe_ok Hok.
  set (era := (day + 719468) / 146097) in *.
  set (yoe := if m0 <=? 2 then y0 - 1 else y0) in *.
  replace (if m0 <=? 2 then y0 + era * 400 - 1 else y0 + era * 400)
    with (yoe + era * 400) by (unfold yoe; destruct (m0 <=? 2); lia).
  rewrite Z.div_add, Z.mod_add by lia.
  rewrite Z.div_small, Z.mod_small by lia.
  lia.
Qed.

Lemma civil_from_days_injective d1 d2 :
  civil_from_days d1 = civil_from_days d2 -> d1 = d2.
Proof.
  intros H. destruct (civil_from_days d1) as [[y m] d] eqn:E1.
  symmetry in H. apply days_from_civil_from_days in E1, H. congruence.
Qed.

(** 0001-01-01 and 9999-12-31 as day numbers. *)
Lemma year_bounds day y m d :
  civil_from_days day = (y, m, d) ->
  (-719162 <= day -> 1 <= y) /\ (day <= 2932896 -> y <= 9999).
Proof.
  unfold civil_from_days.
  pose proof (Z.mod_pos_bound (day + 719468) 146097 ltac:(lia)) as Hb.
  pose proof (doe_ok_all _ Hb) as Hok. unfold doe_ok in Hok.
  pose proof (Z.div_mod (day + 719468) 146097 ltac:(lia)) as Hdm.
  destruct (civil_of_doe ((day + 719468) mod 146097)) as [[y0 m0] d0].
  intros [= <- <- <-]. decode_doe_ok Hok.
  set (era := (day + 719468) / 146097) in *.
  set (doe := (day + 719468) mod 146097) in *.
  assert (Hy0 : 0 <= y0 <= 400) by (destruct (m0 <=? 2); lia).
  split; intros Hday.
  - assert (0 <= era) by lia.
    lia.
  - assert (era <= 24) by lia.
    lia.
Qed.

(** The weekday moves on by one with every day. *)
Lemma getDay_range day : 0 <= getDay day <= 6.
Proof. unfold getDay. pose proof (Z.mod_pos_bound (day + 4) 7). lia. Qed.

Lemma getDay_add day k wd :
  0 <= wd <= 6 ->
  (getDay (day + k) = wd <-> (k - (wd - getDay day)) mod 7 = 0).
Proof.
  unfold getDay. intros Hwd.
  pose proof (Z.mod_pos_bound (day + 4) 7 ltac:(lia)).
  pose proof (Z.mod_pos_bound (day + k + 4) 7 ltac:(lia)).
  pose proof (Z.div_mod (day + 4) 7 ltac:(lia)).
  pose proof (Z.div_mod (day + k + 4) 7 ltac:(lia)).
  pose proof (Z.div_mod (k - (wd - (day + 4) mod 7)) 7 ltac:(lia)).
  pose proof (Z.mod_pos_bound (k - (wd - (day + 4) mod 7)) 7 ltac:(lia)).
  split; intros; lia.
Qed.

(** ** Characters and decimal text *)

Ltac ascii_cases c := destruct c as [[] [] [] [] [] [] [] []].

Lemma whitespace_not_word c : is_whitespace c = true -> is_word_char c = false.
Proof. ascii_cases c; vm_compute; congruence. Qed.

Lemma digit_is_word c : is_digit c = true -> is_word_char c = true.
Proof. ascii_cases c; vm_compute; congruence. Qed.

Lemma digit_not_whitespace c : is_digit c = true -> is_whitespace c = false.
Proof. ascii_cases c; vm_compute; congruence. Qed.

Lemma digit_toLowerCase c : is_digit c = true -> toLowerCase_char c = c.
Proof. ascii_cases c; vm_compute; congruence. Qed.

Lemma digit_not_hyphen c : is_digit c = true -> Ascii.eqb "-" c = false.
Proof. ascii_cases c; vm_compute; congruence. Qed.

Lemma digit_value_range c : is_digit c = true -> 0 <= digit_value c <= 9.
Proof. ascii_cases c; vm_compute; intuition congruence. Qed.

Lemma digit_char_value c : is_digit c = true -> digit_char (digit_value c) = c.
Proof. ascii_cases c; vm_compute; congruence. Qed.

Ltac digit_char_cases n :=
  let H := fresh "H" in
  let Hb := fresh "Hb" in
  pose proof (Z.mod_pos_bound n 10 ltac:(lia)) as Hb;
  assert (n mod 10 = 0 \/ n mod 10 = 1 \/ n mod 10 = 2 \/ n mod 10 = 3
          \/ n mod 10 = 4 \/ n mod 10 = 5 \/ n mod 10 = 6
          \/ n mod 10 = 7 \/ n mod 10 = 8 \/ n mod 10 = 9) as H by lia;
  unfold digit_char; clear Hb;
  repeat (destruct H as [H|H]; [rewrite H; try reflexivity|]);
  rewrite H; try reflexivity.

Lemma digit_char_is_digit n : is_digit (digit_char n) = true.
Proof. digit_char_cases n. Qed.

Lemma digit_value_digit_char n : digit_value (digit_char n) = n mod 10.
Proof. digit_char_cases n. Qed.

Lemma decimal_digits_length k : forall fuel n,
  10 ^ Z.of_nat k <= n -> (k < fuel)%nat ->
  (k + 1 <= String.length (decimal_digits fuel n))%nat.
Proof.
  induction k as [|k IH]; intros fuel n Hn Hf;
    (destruct fuel as [|fuel]; [lia|]); simpl decimal_digits.
  - destruct (n <? 10); [simpl; lia|]. rewrite length_append. simpl. lia.
  - rewrite Nat2Z.inj_succ, Z.pow_succ_r in Hn by lia.
    assert (0 < 10 ^ Z.of_nat k) by (apply Z.pow_pos_nonneg; lia).
    destruct (Z.ltb_spec n 10); [lia|].
    rewrite length_append. simpl.
    assert (10 ^ Z.of_nat k <= n / 10).
    { apply Z.div_le_lower_bound; lia. }
    specialize (IH fuel (n / 10) ltac:(lia) ltac:(lia)). lia.
Qed.

Lemma Number_toString_long n :
  10000 <= n -> (5 <= String.length (Number_toString n))%nat.
Proof.
  intros Hn. unfold Number_toString.
  apply (decimal_digits_length 4); [exact Hn|].
  assert (13 <= Z.log2 n).
  { change 13 with (Z.log2 10000). now apply Z.log2_le_mono. }
  lia.
Qed.

Lemma addLeadingZeros_four y :
  0 <= y <= 9999 -> addLeadingZeros y 4 = four_digits y.
Proof.
  intros Hy.
  assert (H : check_range pads_ok4 14 0 = true)
    by (vm_cast_no_check (eq_refl true)).
  pose proof (check_range_spec _ _ _ H y) as Hx. unfold pads_ok4 in Hx.
  destruct (Z.ltb_spec y 0); [lia|]. destruct (Z.ltb_spec 9999 y); [lia|].
  cbn [orb] in Hx. apply String.eqb_eq, Hx.
  change (2 ^ Z.of_nat 14) with 16384. lia.
Qed.

Lemma addLeadingZeros_two m :
  0 <= m <= 99 -> addLeadingZeros m 2 = two_digits m.
Proof.
  intros Hm.
  assert (H : check_range pads_ok2 7 0 = true)
    by (vm_cast_no_check (eq_refl true)).
  pose proof (check_range_spec _ _ _ H m) as Hx. unfold pads_ok2 in Hx.
  destruct (Z.ltb_spec m 0); [lia|]. destruct (Z.ltb_spec 99 m); [lia|].
  cbn [orb] in Hx. apply String.eqb_eq, Hx.
  change (2 ^ Z.of_nat 7) with 128. lia.
Qed.

Lemma addLeadingZeros_long y :
  10000 <= y -> (5 <= String.length (addLeadingZeros y 4))%nat.
Proof.
  intros Hy. unfold addLeadingZeros, padStart0. rewrite length_append.
  pose proof (Number_toString_long y Hy). lia.
Qed.

Lemma days_in_month_le_31 y m : days_in_month y m <= 31.
Proof.
  unfold days_in_month.
  repeat match goal with |- context [if ?b then _ else _] => destruct b end; lia.
Qed.

(** The text of a day from 0001-01-01 on whose year has four digits. *)
Lemma format_day_iso day y m d :
  civil_from_days day = (y, m, d) -> 1 <= y <= 9999 ->
  format_day day = iso_text y m d.
Proof.
  intros Hc Hy. unfold format_day, iso_text. rewrite Hc.
  destruct (civil_from_days_valid _ _ _ _ Hc) as [Hm Hd].
  pose proof (days_in_month_le_31 y m).
  destruct (Z.ltb_spec 0 y); [|lia].
  rewrite addLeadingZeros_four, !addLeadingZeros_two by lia. reflexivity.
Qed.

(** The text of a day after 9999-12-31 is longer than YYYY-MM-DD. *)
Lemma format_day_long day y m d :
  civil_from_days day = (y, m, d) -> 10000 <= y ->
  (11 <= String.length (format_day day))%nat.
Proof.
  intros Hc Hy. unfold format_day. rewrite Hc.
  destruct (civil_from_days_valid _ _ _ _ Hc) as [Hm Hd].
  pose proof (days_in_month_le_31 y m).
  destruct (Z.ltb_spec 0 y); [|lia].
  rewrite !addLeadingZeros_two by lia.
  rewrite length_append. pose proof (addLeadingZeros_long y Hy).
  simpl. lia.
Qed.

Lemma four_digits_value y :
  0 <= y <= 9999 ->
  value4 (digit_char (y / 1000)) (digit_char (y / 100))
    (digit_char (y / 10)) (digit_char y) = y.
Proof.
  intros Hy. unfold value4. rewrite !digit_value_digit_char.
  Z.div_mod_to_equations. lia.
Qed.

Lemma two_digits_value m :
  0 <= m <= 99 -> value2 (digit_char (m / 10)) (digit_char m) = m.
Proof.
  intros Hm. unfold value2. rewrite !digit_value_digit_char.
  Z.div_mod_to_equations. lia.
Qed.

Lemma iso_text_chars y m d :
  iso_text y m d
  = iso_chars (digit_char (y / 1000)) (digit_char (y / 100))
      (digit_char (y / 10)) (digit_char y)
      (digit_char (m / 10)) (digit_char m)
      (digit_char (d / 10)) (digit_char d).
Proof. reflexivity. Qed.

(** ** Texts in the shape YYYY-MM-DD *)

Lemma valid_date_b_spec y m d :
  0 <= y <= 9999 ->
  valid_date_b y m d = true <-> valid_calendar_date y m d.
Proof.
  intros Hy. unfold valid_date_b, valid_calendar_date.
  rewrite !andb_true_iff, Z.ltb_lt, !Z.leb_le. lia.
Qed.

Lemma doe_of_civil_bounds yoe m d :
  0 <= yoe <= 399 -> 1 <= m <= 12 -> 1 <= d <= 31 ->
  0 <= doe_of_civil yoe m d <= 146500.
Proof.
  intros Hy Hm Hd. unfold doe_of_civil.
  destruct (2 <? m) eqn:E;
    [apply Z.ltb_lt in E | apply Z.ltb_ge in E];
    Z.div_mod_to_equations; lia.
Qed.

Lemma TimeClip_in_range day :
  - MAX_DAY <= day < MAX_DAY -> TimeClip day = ValidDate day.
Proof.
  intros H. unfold TimeClip.
  destruct (Z.leb_spec (- MAX_DAY) day); [|lia].
  destruct (Z.ltb_spec day MAX_DAY); [reflexivity | lia].
Qed.

Lemma TimeClip_out_of_range day :
  MAX_DAY < day -> TimeClip day = InvalidDate.
Proof.
  intros H. unfold TimeClip.
  destruct (Z.ltb_spec day MAX_DAY); [lia|]. now rewrite andb_false_r.
Qed.

Lemma TimeClip_inside day :
  inside_Date_range day -> TimeClip day = ValidDate day.
Proof.
  unfold inside_Date_range. intros H. apply TimeClip_in_range. lia.
Qed.

(** The dates of the years 1..9999 lie within the range of [Date]. *)
Lemma TimeClip_civil y m d :
  1 <= y <= 9999 -> 1 <= m <= 12 -> 1 <= d <= 31 ->
  TimeClip (days_from_civil y m d) = ValidDate (days_from_civil y m d).
Proof.
  intros Hy Hm Hd. apply TimeClip_in_range.
  unfold days_from_civil, MAX_DAY.
  set (y' := if m <=? 2 then y - 1 else y).
  assert (Hy' : 0 <= y' <= 9999) by (unfold y'; destruct (m <=? 2); lia).
  pose proof (Z.mod_pos_bound y' 400 ltac:(lia)) as Hmod.
  pose proof (doe_of_civil_bounds (y' mod 400) m d ltac:(lia) Hm Hd) as Hdoe.
  assert (0 <= y' / 400 <= 24) by (Z.div_mod_to_equations; lia).
  lia.
Qed.

Section IsoChars.
Variables y1 y2 y3 y4 m1 m2 d1 d2 : ascii.
Hypothesis Hy1 : is_digit y1 = true.
Hypothesis Hy2 : is_digit y2 = true.
Hypothesis Hy3 : is_digit y3 = true.
Hypothesis Hy4 : is_digit y4 = true.
Hypothesis Hm1 : is_digit m1 = true.
Hypothesis Hm2 : is_digit m2 = true.
Hypothesis Hd1 : is_digit d1 = true.
Hypothesis Hd2 : is_digit d2 = true.

Let text : string := iso_chars y1 y2 y3 y4 m1 m2 d1 d2.
Let year : Z := value4 y1 y2 y3 y4.
Let month : Z := value2 m1 m2.
Let date : Z := value2 d1 d2.

Lemma iso_chars_all_word_or_hyphen :
  all_chars (fun c => is_word_char c || is_whitespace c) text = false.
Proof.
  unfold text, iso_chars. cbn [all_chars].
  rewrite (digit_is_word y1), (digit_is_word y2), (digit_is_word y3),
    (digit_is_word y4) by assumption.
  reflexivity.
Qed.

Lemma iso_chars_normalized : toLowerCase (trim text) = text.
Proof.
  unfold text, iso_chars, trim. cbn [trimStart].
  rewrite (digit_not_whitespace y1 Hy1).
  cbn [trimEnd]. rewrite (digit_not_whitespace d2 Hd2).
  cbn [toLowerCase].
  rewrite (digit_toLowerCase y1), (digit_toLowerCase y2),
    (digit_toLowerCase y3), (digit_toLowerCase y4),
    (digit_toLowerCase m1), (digit_toLowerCase m2),
    (digit_toLowerCase d1), (digit_toLowerCase d2) by assumption.
  reflexivity.
Qed.

Lemma iso_chars_match :
  String_match text isoDate_re
  = Some [String y1 (String y2 (String y3 (String y4 EmptyString)));
          String m1 (String m2 EmptyString);
          String d1 (String d2 EmptyString)].
Proof.
  unfold text, iso_chars, String_match, isoDate_re.
  cbn [seq_re fold_right match_k repeat_k lit atom_test].
  rewrite Hy1, Hy2, Hy3, Hy4. cbn [Ascii.eqb Bool.eqb match_k].
  cbn [repeat_k atom_test]. rewrite Hm1, Hm2.
  cbn [Ascii.eqb Bool.eqb match_k repeat_k atom_test]. rewrite Hd1, Hd2.
  reflexivity.
Qed.

Lemma year_range : 0 <= year <= 9999.
Proof.
  unfold year, value4.
  pose proof (digit_value_range _ Hy1). pose proof (digit_value_range _ Hy2).
  pose proof (digit_value_range _ Hy3). pose proof (digit_value_range _ Hy4).
  lia.
Qed.

Lemma iso_chars_parse :
  parse_yyyy_MM_dd text
  = if valid_date_b year month date
    then ValidDate (days_from_civil year month date)
    else InvalidDate.
Proof.
  unfold text, iso_chars, parse_yyyy_MM_dd, parseNDigits.
  cbn [take_digits]. rewrite Hy1, Hy2, Hy3, Hy4.
  cbn [is_empty expect_hyphen take_digits leading_digits].
  rewrite Hy1, Hy2, Hy3, Hy4, Hm1, Hm2.
  cbn [is_empty expect_hyphen take_digits leading_digits].
  rewrite Hm1, Hm2, Hd1, Hd2.
  cbn [is_empty expect_hyphen take_digits leading_digits andb].
  rewrite Hd1, Hd2.
  replace (10 * (10 * (10 * (10 * 0 + digit_value y1) + digit_value y2)
                 + digit_value y3) + digit_value y4)
    with year by (unfold year, value4; lia).
  replace (10 * (10 * 0 + digit_value m1) + digit_value m2)
    with month by (unfold month, value2; lia).
  replace (10 * (10 * 0 + digit_value d1) + digit_value d2)
    with date by (unfold date, value2; lia).
  fold (valid_date_b year month date).
  destruct (valid_date_b year month date) eqn:Hv; [|reflexivity].
  apply valid_date_b_spec in Hv; [|exact year_range].
  destruct Hv as (Hy & Hm & Hd).
  pose proof (days_in_month_le_31 year month).
  apply TimeClip_civil; lia.
Qed.

(** The first branch of [parseHumanDate]. *)
Lemma parseHumanDate_iso_chars today input :
  toLowerCase (trim input) = text ->
  parseHumanDate today input
  = if valid_date_b year month date then Return text
    else Throw (unable_to_parse input).
Proof.
  intros Hn. unfold parseHumanDate. rewrite Hn.
  change (is_empty text) with false. cbv iota.
  rewrite iso_chars_match, iso_chars_parse.
  destruct (valid_date_b year month date); reflexivity.
Qed.
End IsoChars.

(** A text that matches the first pattern is made of eight digits and
    two hyphens. *)
Lemma isoDate_re_inv s caps :
  String_match s isoDate_re = Some caps ->
  exists y1 y2 y3 y4 m1 m2 d1 d2,
    s = iso_chars y1 y2 y3 y4 m1 m2 d1 d2
    /\ is_digit y1 = true /\ is_digit y2 = true /\ is_digit y3 = true
    /\ is_digit y4 = true /\ is_digit m1 = true /\ is_digit m2 = true
    /\ is_digit d1 = true /\ is_digit d2 = true.
Proof.
  intros H. apply String_match_sound in H.
  cbn [isoDate_re seq_re fold_right lang lit] in H.
  destruct H as (p1 & r1 & k1 & -> & (? & ([Hl1 Ha1] & ?) & ?) & H).
  destruct H as (p2 & r2 & k2 & -> & Hhy1 & H).
  destruct H as (p3 & r3 & k3 & -> & (? & ([Hl3 Ha3] & ?) & ?) & H).
  destruct H as (p4 & r4 & k4 & -> & Hhy2 & H).
  destruct H as (p5 & r5 & k5 & -> & (? & ([Hl5 Ha5] & ?) & ?) & -> & ?).
  destruct Hhy1 as (h1 & e1 & ? & -> & ((c1 & -> & Hc1) & ?) & -> & ?).
  destruct Hhy2 as (h2 & e2 & ? & -> & ((c2 & -> & Hc2) & ?) & -> & ?).
  cbn [atom_test] in Hc1, Hc2.
  apply Ascii.eqb_eq in Hc1, Hc2. subst c1 c2.
  destruct p1 as [|y1 [|y2 [|y3 [|y4 [|? ?]]]]]; try discriminate.
  destruct p3 as [|m1 [|m2 [|? ?]]]; try discriminate.
  destruct p5 as [|d1 [|d2 [|? ?]]]; try discriminate.
  cbn [all_chars atom_test] in Ha1, Ha3, Ha5.
  rewrite !andb_true_iff in Ha1. rewrite !andb_true_iff in Ha3.
  rewrite !andb_true_iff in Ha5.
  exists y1, y2, y3, y4, m1, m2, d1, d2.
  split; [reflexivity | tauto].
Qed.

(** ** The patterns of the parser *)

Lemma word_not_whitespace c : is_word_char c = true -> is_whitespace c = false.
Proof.
  intros H. destruct (is_whitespace c) eqn:E; [|reflexivity].
  apply whitespace_not_word in E. congruence.
Qed.

Lemma stops_after_spaces ws rest : spaces ws -> stops Word (ws ++ rest).
Proof.
  intros [Hne Hws]. destruct ws as [|c ws]; [contradiction|].
  simpl in *. apply andb_prop in Hws as [Hc _].
  now apply whitespace_not_word.
Qed.

Lemma stops_after_word w rest : word_token w -> stops Space (w ++ rest).
Proof.
  intros [Hne Hw]. destruct w as [|c w]; [contradiction|].
  simpl in *. apply andb_prop in Hw as [Hc _].
  now apply word_not_whitespace.
Qed.

Lemma unit_word_token u : unit_word u -> word_token u.
Proof. intros [-> | [-> | [-> | ->]]]; split; (discriminate || reflexivity). Qed.

Lemma skip_run a p rest :
  all_chars (atom_test a) p = true -> stops a rest -> skip a (p ++ rest) = rest.
Proof.
  intros Hp Hs. induction p as [|c p IH]; simpl in *.
  - destruct rest as [|c rest]; simpl in *; [reflexivity | now rewrite Hs].
  - apply andb_prop in Hp as [Hc Hp]. rewrite Hc. auto.
Qed.

Lemma stops_nil a : stops a EmptyString.
Proof. exact I. Qed.

Lemma lang_lit w p caps caps' : lang (lit w) p caps caps' -> p = w /\ caps' = caps.
Proof.
  revert p caps'. induction w as [|c w IH]; simpl; intros p caps' H.
  - exact H.
  - destruct H as (p1 & p2 & caps1 & -> & ((c' & -> & Hc) & ->) & H).
    apply Ascii.eqb_eq in Hc. subst c'.
    destruct (IH _ _ H) as [-> ->]. auto.
Qed.

Lemma lang_unit_re u caps caps' :
  lang unit_re u caps caps' -> unit_word u /\ caps' = caps.
Proof.
  unfold unit_re. cbn [lang]. unfold unit_word.
  intros [H|H];
    destruct H as (p1 & p2 & caps1 & -> & H1 & H2);
    apply lang_lit in H1 as [-> ->];
    (destruct H2 as [[-> ->]|H2]; [|apply lang_lit in H2 as [-> ->]]);
    simpl; auto.
Qed.

Lemma fm_unit_re u rest caps :
  unit_word u -> stops Word rest ->
  first_match unit_re (u ++ rest) rest caps caps.
Proof.
  intros Hu Hs k res Hk. destruct rest as [|c r].
  - destruct Hu as [-> | [-> | [-> | ->]]]; cbn; rewrite ?Hk; reflexivity.
  - simpl in Hs.
    assert (Hc : Ascii.eqb "s" c = false).
    { destruct (Ascii.eqb_spec "s" c) as [<-|]; [discriminate | reflexivity]. }
    destruct Hu as [-> | [-> | [-> | ->]]];
      cbn -[Ascii.eqb]; rewrite ?Ascii.eqb_refl;
      try change (Ascii.eqb "d" "w") with false; cbv iota;
      rewrite ?Ascii.eqb_refl, ?Hc, ?Hk; reflexivity.
Qed.

(** The third pattern takes "next", white space and a word. *)
Lemma nextDay_re_inv s caps :
  String_match s nextDay_re = Some caps ->
  exists ws w, s = "next" ++ ws ++ w /\ caps = [w] /\ spaces ws /\ word_token w.
Proof.
  intros H. apply String_match_sound in H.
  cbn [nextDay_re seq_re fold_right lang] in H.
  destruct H as (p1 & r1 & k1 & -> & Hnext & H).
  destruct H as (p2 & r2 & k2 & -> & (Hws & ->) & H).
  destruct H as (p3 & r3 & k3 & -> & (k4 & (Hw & ->) & ->) & -> & ->).
  apply lang_lit in Hnext as [-> ->].
  exists p2, p3. rewrite append_nil_r. repeat split; tauto.
Qed.

(** The fourth pattern takes the phrase "<word> <unit> from now" and
    captures the word and the unit. *)
Lemma fromNow_re_inv s caps :
  String_match s fromNow_re = Some caps ->
  exists q ws1 u ws2 ws3,
    s = fromNow_phrase q ws1 u ws2 ws3 /\ caps = [q; u]
    /\ word_token q /\ spaces ws1 /\ unit_word u /\ spaces ws2 /\ spaces ws3.
Proof.
  intros H. apply String_match_sound in H.
  cbn [fromNow_re seq_re fold_right lang] in H.
  destruct H as (q & r1 & k1 & -> & (k0 & (Hq & ->) & ->) & H).
  destruct H as (ws1 & r2 & k2 & -> & (Hws1 & ->) & H).
  destruct H as (u & r3 & k3 & -> & (k3' & Hu & ->) & H).
  destruct H as (ws2 & r4 & k4 & -> & (Hws2 & ->) & H).
  destruct H as (from & r5 & k5 & -> & Hfrom & H).
  destruct H as (ws3 & r6 & k6 & -> & (Hws3 & ->) & H).
  destruct H as (now & r7 & k7 & -> & Hnow & -> & ->).
  apply lang_unit_re in Hu as [Hu ->].
  apply lang_lit in Hfrom as [-> ->]. apply lang_lit in Hnow as [-> ->].
  exists q, ws1, u, ws2, ws3. unfold fromNow_phrase.
  repeat split; tauto.
Qed.

(** The fifth pattern captures a digit string and a unit. *)
Lemma addition_re_inv s caps :
  String_match s addition_re = Some caps ->
  exists q u, caps = [q; u] /\ digit_string q = true /\ unit_word u.
Proof.
  intros H. apply String_match_sound in H.
  cbn [addition_re seq_re fold_right lang] in H.
  destruct H as (p1 & r1 & k1 & -> & Htoday & H).
  destruct H as (ws1 & r2 & k2 & -> & (Hws1 & ->) & H).
  destruct H as (plus & r3 & k3 & -> & Hplus & H).
  destruct H as (ws2 & r4 & k4 & -> & (Hws2 & ->) & H).
  destruct H as (q & r5 & k5 & -> & (k5' & ((Hq1 & Hq2) & ->) & ->) & H).
  destruct H as (ws3 & r6 & k6 & -> & (Hws3 & ->) & H).
  destruct H as (u & r7 & k7 & -> & (k7' & Hu & ->) & -> & ->).
  apply lang_unit_re in Hu as [Hu ->].
  apply lang_lit in Htoday as [-> ->]. apply lang_lit in Hplus as [-> ->].
  exists q, u. unfold digit_string.
  change (all_chars is_digit q = true) in Hq2.
  rewrite Hq2. destruct q; [contradiction|]. auto.
Qed.

Section FromNowPhrase.
Variables q ws1 u ws2 ws3 : string.
Hypothesis Hq : word_token q.
Hypothesis Hws1 : spaces ws1.
Hypothesis Hu : unit_word u.
Hypothesis Hws2 : spaces ws2.
Hypothesis Hws3 : spaces ws3.

Let phrase : string := fromNow_phrase q ws1 u ws2 ws3.

Lemma fromNow_phrase_match : String_match phrase fromNow_re = Some [q; u].
Proof.
  apply String_match_first. unfold phrase, fromNow_phrase, fromNow_re.
  cbn [seq_re fold_right].
  pose proof (unit_word_token u Hu) as Hu'.
  eapply fm_cat.
  { apply (fm_group _ _ _ [] []).
    apply fm_plus;
      [exact (proj1 Hq) | exact (proj2 Hq) | now apply stops_after_spaces]. }
  eapply fm_cat.
  { apply fm_plus;
      [exact (proj1 Hws1) | exact (proj2 Hws1) | now apply stops_after_word]. }
  eapply fm_cat.
  { apply (fm_group _ _ _ [q] [q]). apply fm_unit_re; [exact Hu|].
    now apply stops_after_spaces. }
  eapply fm_cat.
  { apply fm_plus;
      [exact (proj1 Hws2) | exact (proj2 Hws2) | exact (eq_refl false)]. }
  eapply fm_cat; [apply fm_lit|].
  eapply fm_cat.
  { apply fm_plus;
      [exact (proj1 Hws3) | exact (proj2 Hws3) | exact (eq_refl false)]. }
  eapply fm_cat; [apply (fm_lit "now" EmptyString) | apply fm_eps].
Qed.

Lemma fromNow_phrase_not_empty : is_empty phrase = false.
Proof.
  unfold phrase, fromNow_phrase. destruct Hq as [Hne _].
  destruct q; [contradiction | reflexivity].
Qed.

Lemma fromNow_phrase_chars :
  all_chars (fun c => is_word_char c || is_whitespace c) phrase = true.
Proof.
  assert (Hw : forall w, all_chars is_word_char w = true ->
             all_chars (fun c => is_word_char c || is_whitespace c) w = true).
  { induction w as [|c w IH]; simpl; [reflexivity|].
    intros H. apply andb_prop in H as [-> H]. simpl. auto. }
  assert (Hs : forall w, all_chars is_whitespace w = true ->
             all_chars (fun c => is_word_char c || is_whitespace c) w = true).
  { induction w as [|c w IH]; simpl; [reflexivity|].
    intros H. apply andb_prop in H as [-> H]. rewrite orb_true_r. simpl. auto. }
  unfold phrase, fromNow_phrase. rewrite !all_chars_append.
  rewrite (Hw q), (Hs ws1), (Hw u), (Hs ws2), (Hs ws3);
    try apply Hq; try apply Hws1; try apply Hws2; try apply Hws3;
    try apply (unit_word_token u Hu).
  reflexivity.
Qed.

Lemma fromNow_phrase_after_two_words :
  after_two_words phrase = ws2 ++ "from" ++ ws3 ++ "now".
Proof.
  unfold after_two_words, phrase, fromNow_phrase.
  rewrite (skip_run Word q); [|apply Hq | now apply stops_after_spaces].
  rewrite (skip_run Space ws1);
    [|apply Hws1 | apply stops_after_word, unit_word_token, Hu].
  rewrite (skip_run Word u);
    [reflexivity | apply (unit_word_token u Hu) | now apply stops_after_spaces].
Qed.

Lemma after_two_words_not_empty : after_two_words phrase <> EmptyString.
Proof.
  rewrite fromNow_phrase_after_two_words. destruct Hws2 as [Hne _].
  destruct ws2; [contradiction | discriminate].
Qed.

Lemma fromNow_phrase_not_iso : String_match phrase isoDate_re = None.
Proof.
  destruct (String_match phrase isoDate_re) as [caps|] eqn:E; [|reflexivity].
  apply isoDate_re_inv in E
    as (y1 & y2 & y3 & y4 & m1 & m2 & d1 & d2 & E & H1 & H2 & H3 & H4 & _).
  pose proof fromNow_phrase_chars as Hc. rewrite E in Hc.
  rewrite iso_chars_all_word_or_hyphen in Hc by assumption. discriminate.
Qed.

Lemma fromNow_phrase_not_nextDay : String_match phrase nextDay_re = None.
Proof.
  destruct (String_match phrase nextDay_re) as [caps|] eqn:E; [|reflexivity].
  apply nextDay_re_inv in E as (ws & w & E & _ & Hws & Hw).
  exfalso. apply after_two_words_not_empty. rewrite E.
  unfold after_two_words.
  rewrite (skip_run Word "next");
    [|reflexivity | now apply stops_after_spaces].
  rewrite <- (append_nil_r w).
  rewrite (skip_run Space ws); [|apply Hws | now apply stops_after_word].
  now rewrite (skip_run Word w); [|apply Hw | apply stops_nil].
Qed.

Lemma fromNow_phrase_not_keyword k :
  after_two_words k = EmptyString -> String.eqb phrase k = false.
Proof.
  intros Hk. apply String.eqb_neq. intros E.
  apply after_two_words_not_empty. now rewrite E.
Qed.
End FromNowPhrase.

(** ** Quantities *)

Lemma leading_digits_nonneg s : forall acc, 0 <= acc -> 0 <= leading_digits acc s.
Proof.
  induction s as [|c s IH]; cbn [leading_digits]; intros acc Hacc;
    [assumption|].
  destruct (is_digit c) eqn:Hc; [|assumption].
  apply IH. pose proof (digit_value_range c Hc). lia.
Qed.

Lemma WORD_TO_NUMBER_own q n :
  own_property WORD_TO_NUMBER q = Some n -> 1 <= n <= 10.
Proof.
  unfold WORD_TO_NUMBER. cbn [own_property].
  repeat match goal with
    | |- context [String.eqb ?a q] => destruct (String.eqb a q)
    end; intros [= <-]; lia.
Qed.

Lemma quantity_number_word q n :
  own_property WORD_TO_NUMBER q = Some n -> quantity_of q = QNumber n.
Proof.
  intros H. pose proof (WORD_TO_NUMBER_own q n H) as Hn.
  unfold quantity_of, object_get. rewrite H.
  destruct (Z.eqb_spec n 0); [lia | reflexivity].
Qed.

Lemma parseInt_word_token q :
  word_token q ->
  parseInt q = if starts_with_digit q then Some (decimal_value q) else None.
Proof.
  intros [Hne Hw]. destruct q as [|c q]; [contradiction|].
  simpl in Hw. apply andb_prop in Hw as [Hc _].
  unfold parseInt, starts_with_digit, decimal_value. cbn [trimStart].
  rewrite (word_not_whitespace c Hc).
  ascii_cases c; vm_compute in Hc; try discriminate Hc;
    cbv beta iota; destruct (is_digit _) eqn:Hd;
    try reflexivity; try (vm_compute in Hd; discriminate Hd);
    rewrite Z.mul_1_l; reflexivity.
Qed.

Lemma own_property_digit {V : Type} (table : list (string * V)) c q :
  forallb (fun kv => negb (starts_with_digit (fst kv))) table = true ->
  is_digit c = true -> own_property table (String c q) = None.
Proof.
  intros Ht Hc. induction table as [|[k v] table IH]; [reflexivity|].
  simpl in Ht. apply andb_prop in Ht as [Hk Ht].
  cbn [own_property]. destruct (String.eqb_spec k (String c q)) as [->|_].
  - simpl in Hk. rewrite Hc in Hk. discriminate.
  - auto.
Qed.

Lemma digit_string_token q :
  digit_string q = true -> word_token q /\ starts_with_digit q = true.
Proof.
  unfold digit_string, word_token. intros H.
  apply andb_prop in H as [Hne Hd].
  destruct q as [|c q]; [discriminate|]. simpl in Hd.
  apply andb_prop in Hd as [Hc Hd]. repeat split; [discriminate| |exact Hc].
  simpl. rewrite (digit_is_word c Hc). simpl.
  clear -Hd. induction q as [|c' q IH]; [reflexivity|]. simpl in *.
  apply andb_prop in Hd as [Hc' Hd]. now rewrite (digit_is_word c' Hc'), IH.
Qed.

Lemma quantity_digit_string q :
  digit_string q = true -> quantity_of q = QNumber (decimal_value q).
Proof.
  intros H. destruct (digit_string_token q H) as [Hw Hs].
  unfold quantity_of, object_get. rewrite (parseInt_word_token q Hw), Hs.
  destruct q as [|c q]; [discriminate|]. simpl in Hs.
  rewrite own_property_digit by (reflexivity || exact Hs).
  ascii_cases c; vm_compute in Hs; try discriminate Hs; reflexivity.
Qed.

Lemma quantity_not_numeric q :
  word_token q -> number_word q = false -> starts_with_digit q = false ->
  isNaN (quantity_of q) = true.
Proof.
  intros Hw Hn Hs. unfold quantity_of, object_get, number_word in *.
  rewrite (parseInt_word_token q Hw), Hs.
  destruct (own_property WORD_TO_NUMBER q); [discriminate|].
  destruct (String.eqb q "constructor"); [reflexivity|].
  destruct (String.eqb q "__proto__"); reflexivity.
Qed.

Lemma quantity_nonneg q n :
  word_token q -> quantity_of q = QNumber n -> 0 <= n.
Proof.
  intros Hw. unfold quantity_of, object_get.
  rewrite (parseInt_word_token q Hw).
  assert (Hd : 0 <= decimal_value q) by (apply leading_digits_nonneg; lia).
  destruct (own_property WORD_TO_NUMBER q) as [m|] eqn:Hown.
  - pose proof (WORD_TO_NUMBER_own q m Hown).
    destruct (Z.eqb_spec m 0); [lia|]. intros [= <-]. lia.
  - destruct (String.eqb q "constructor"); [discriminate|].
    destruct (String.eqb q "__proto__"); [discriminate|].
    destruct (starts_with_digit q); [|discriminate]. intros [= <-]. exact Hd.
Qed.

(** ** Days added to a date *)

Lemma TimeClip_ValidDate x day : TimeClip x = ValidDate day -> day = x.
Proof. unfold TimeClip. destruct (_ && _); [|discriminate]. now intros [= <-]. Qed.

Lemma format_Return date out :
  format date = Return out ->
  exists day, date = ValidDate day /\ out = format_day day.
Proof. destruct date; simpl; [|discriminate]. intros [= <-]. eauto. Qed.

Lemma add_duration today u n :
  add (ValidDate today) (duration_of u n)
  = if days_of u n =? 0 then ValidDate today
    else TimeClip (today + days_of u n).
Proof.
  unfold add, duration_of, days_of, addDays.
  destruct (startsWith u "week"); cbn [days weeks].
  - change (negb (0 =? 0)) with false. rewrite orb_false_l, Z.add_0_l.
    destruct (Z.eqb_spec n 0) as [->|Hn]; [reflexivity|]. cbn [negb].
    reflexivity.
  - change (negb (0 =? 0)) with false. change (0 * 7) with 0.
    rewrite orb_false_r, Z.add_0_r.
    destruct (Z.eqb_spec n 0); reflexivity.
Qed.

Lemma add_duration_ValidDate today u n day :
  add (ValidDate today) (duration_of u n) = ValidDate day ->
  day = today + days_of u n.
Proof.
  rewrite add_duration. destruct (Z.eqb_spec (days_of u n) 0) as [->|_].
  - intros [= <-]. lia.
  - apply TimeClip_ValidDate.
Qed.

(** Inside the range of [Date], a quantity of days or weeks is added
    to the calendar day. *)
Lemma format_add_duration today u n :
  inside_Date_range (today + days_of u n) ->
  format (add (ValidDate today) (duration_of u n))
  = Return (format_day (today + days_of u n)).
Proof.
  intros Hr. rewrite add_duration.
  destruct (Z.eqb_spec (days_of u n) 0) as [->|_].
  - now rewrite Z.add_0_r.
  - now rewrite TimeClip_inside.
Qed.

(** Beyond the range of [Date] the addition gives the invalid date and
    [format] throws. *)
Lemma format_add_duration_overflow today u n :
  MAX_DAY < today + days_of u n -> in_Date_range today ->
  format (add (ValidDate today) (duration_of u n))
  = Throw (JSErrorObj "RangeError" "Invalid time value").
Proof.
  intros Hr Ht. rewrite add_duration. unfold in_Date_range in Ht.
  destruct (Z.eqb_spec (days_of u n) 0) as [E|_]; [lia|].
  now rewrite TimeClip_out_of_range.
Qed.

Lemma days_of_nonneg u n : 0 <= n -> 0 <= days_of u n.
Proof. unfold days_of. destruct (startsWith u "week"); lia. Qed.

(** [nextDay] moves on by one to seven days, to the first day after
    today that falls on the given day of the week. *)
Lemma nextDay_spec today wd :
  0 <= wd <= 6 ->
  exists delta,
    1 <= delta <= 7
    /\ nextDay (ValidDate today) wd = TimeClip (today + delta)
    /\ getDay (today + delta) = wd
    /\ forall k, 1 <= k < delta -> getDay (today + k) <> wd.
Proof.
  intros Hwd. pose proof (getDay_range today) as Hg.
  unfold nextDay, addDays.
  set (delta := if wd - getDay today <=? 0 then wd - getDay today + 7
                else wd - getDay today).
  assert (Hdelta : 1 <= delta <= 7
                   /\ (delta = wd - getDay today
                       \/ delta = wd - getDay today + 7)).
  { unfold delta. destruct (Z.leb_spec (wd - getDay today) 0); lia. }
  exists delta. split; [lia|]. split; [|split].
  - destruct (Z.eqb_spec delta 0); [lia | reflexivity].
  - apply getDay_add; [exact Hwd|].
    destruct Hdelta as [_ [-> | ->]].
    + now rewrite Z.sub_diag.
    + replace (wd - getDay today + 7 - (wd - getDay today)) with 7 by lia.
      reflexivity.
  - intros k Hk Hday. apply getDay_add in Hday; [|exact Hwd].
    pose proof (Z.div_mod (k - (wd - getDay today)) 7 ltac:(lia)) as Hdm.
    rewrite Hday in Hdm. lia.
Qed.

Lemma DAY_FUNCTIONS_weekdays w :
  match own_property DAY_FUNCTIONS w, own_property weekdays w with
  | Some dayFunction, Some wd =>
      0 <= wd <= 6 /\ forall date, dayFunction date = nextDay date wd
  | None, None => True
  | _, _ => False
  end.
Proof.
  unfold DAY_FUNCTIONS, weekdays. cbn [own_property].
  repeat match goal with
    | |- context [String.eqb ?a w] => destruct (String.eqb a w)
    end; try exact I; (split; [lia | reflexivity]).
Qed.

(** ** The branches of [parseHumanDate] *)

Lemma parseHumanDate_empty today input :
  is_empty (toLowerCase (trim input)) = true ->
  parseHumanDate today input = Throw (new_Error "Unable to parse date: ").
Proof. intros H. unfold parseHumanDate. now rewrite H. Qed.

Lemma object_get_DAY_FUNCTIONS_none w :
  weekday_name w = false -> inherited_key w = false ->
  object_get DAY_FUNCTIONS w = Undefined.
Proof.
  unfold weekday_name, inherited_key, object_get. intros Hw Hk.
  pose proof (DAY_FUNCTIONS_weekdays w) as H.
  destruct (own_property DAY_FUNCTIONS w), (own_property weekdays w);
    try contradiction; try discriminate.
  apply orb_false_elim in Hk as [-> ->]. reflexivity.
Qed.

Lemma keyword_false n :
  keyword n = false ->
  String.eqb n "today" = false /\ String.eqb n "tomorrow" = false
  /\ String.eqb n "yesterday" = false /\ String.eqb n "next week" = false.
Proof.
  unfold keyword. intros H.
  apply orb_false_elim in H as [H H4]. apply orb_false_elim in H as [H H3].
  apply orb_false_elim in H as [H1 H2]. auto.
Qed.

(** A text that no pattern recognizes falls through to the last
    [throw]. *)
Lemma parseHumanDate_no_pattern today input :
  is_empty (toLowerCase (trim input)) = false ->
  matches_no_pattern (toLowerCase (trim input)) = true ->
  parseHumanDate today input = Throw (unable_to_parse input).
Proof.
  intros Hne H. unfold parseHumanDate, matches_no_pattern in *.
  set (n := toLowerCase (trim input)) in *. rewrite Hne.
  rewrite !andb_true_iff in H. destruct H as [[[[Hiso Hkw] Hnext] Hfrom] Hadd].
  destruct (String_match n isoDate_re); [discriminate|].
  apply negb_true_iff, keyword_false in Hkw as (-> & -> & -> & ->).
  destruct (String_match n addition_re); [discriminate|].
  assert (Hrest :
    match String_match n fromNow_re with
    | Some fromNowMatch =>
        if isNaN (quantity_of (group fromNowMatch 1))
        then Throw (unable_to_parse input)
        else format (add (ValidDate today)
                       (duration_of (group fromNowMatch 2)
                          (number_of (quantity_of (group fromNowMatch 1)))))
    | None => Throw (unable_to_parse input)
    end = Throw (unable_to_parse input)).
  { destruct (String_match n fromNow_re) as [m|] eqn:Hm; [|reflexivity].
    apply fromNow_re_inv in Hm as (q & ws1 & u & ws2 & ws3 & _ & -> & Hq & _).
    cbn [group nth Nat.sub] in *.
    apply andb_prop in Hfrom as [Hw Hd]. apply negb_true_iff in Hw, Hd.
    now rewrite (quantity_not_numeric q Hq Hw Hd). }
  destruct (String_match n nextDay_re) as [m|]; [|exact Hrest].
  apply andb_prop in Hnext as [Hw Hk]. apply negb_true_iff in Hw, Hk.
  rewrite (object_get_DAY_FUNCTIONS_none _ Hw Hk). exact Hrest.
Qed.

(** The fourth pattern: what the parser does with the phrase
    "<word> <unit> from now". *)
Lemma parseHumanDate_fromNow today input q ws1 u ws2 ws3 :
  toLowerCase (trim input) = fromNow_phrase q ws1 u ws2 ws3 ->
  word_token q -> spaces ws1 -> unit_word u -> spaces ws2 -> spaces ws3 ->
  parseHumanDate today input
  = if isNaN (quantity_of q) then Throw (unable_to_parse input)
    else format (add (ValidDate today)
                   (duration_of u (number_of (quantity_of q)))).
Proof.
  intros Hn Hq Hws1 Hu Hws2 Hws3. unfold parseHumanDate. rewrite Hn.
  rewrite fromNow_phrase_not_empty by assumption.
  rewrite fromNow_phrase_not_iso by assumption.
  rewrite !fromNow_phrase_not_keyword by (assumption || reflexivity).
  rewrite fromNow_phrase_not_nextDay by assumption.
  rewrite fromNow_phrase_match by assumption.
  reflexivity.
Qed.

Lemma parseInt_digit_string q :
  digit_string q = true -> parseInt q = Some (decimal_value q).
Proof.
  intros H. destruct (digit_string_token q H) as [Hw Hs].
  now rewrite (parseInt_word_token q Hw), Hs.
Qed.

(** Past the first pattern, what [parseHumanDate] returns is the text
    of a day that is not before yesterday. *)
Lemma parseHumanDate_relative_day today input out :
  String_match (toLowerCase (trim input)) isoDate_re = None ->
  parseHumanDate today input = Return out ->
  exists day, today - 1 <= day /\ out = format_day day.
Proof.
  intros Hiso H. unfold parseHumanDate in H. rewrite Hiso in H.
  set (n := toLowerCase (trim input)) in *.
  destruct (is_empty n); [discriminate|].
  destruct (String.eqb n "today").
  { apply format_Return in H as (day & [= <-] & ->). exists today.
    split; [lia | reflexivity]. }
  destruct (String.eqb n "tomorrow").
  { apply format_Return in H as (day & Hd & ->).
    apply (add_duration_ValidDate today "day" 1) in Hd. exists day.
    split; [|reflexivity]. unfold days_of in Hd. simpl in Hd. lia. }
  destruct (String.eqb n "yesterday").
  { apply format_Return in H as (day & Hd & ->).
    apply (add_duration_ValidDate today "day" (-1)) in Hd. exists day.
    split; [|reflexivity]. unfold days_of in Hd. simpl in Hd. lia. }
  assert (Hnext : forall wd out',
            0 <= wd <= 6 ->
            format (nextDay (ValidDate today) wd) = Return out' ->
            exists day, today - 1 <= day /\ out' = format_day day).
  { intros wd out' Hwd Hf.
    destruct (nextDay_spec today wd Hwd) as (delta & Hdelta & Hnd & _).
    rewrite Hnd in Hf. apply format_Return in Hf as (day & Hd & ->).
    apply TimeClip_ValidDate in Hd. exists day. split; [lia | reflexivity]. }
  destruct (String.eqb n "next week").
  { apply (Hnext 1); [lia | exact H]. }
  assert (Hrest : forall out',
    match String_match n fromNow_re with
    | Some fromNowMatch =>
        if isNaN (quantity_of (group fromNowMatch 1))
        then Throw (unable_to_parse input)
        else format (add (ValidDate today)
                       (duration_of (group fromNowMatch 2)
                          (number_of (quantity_of (group fromNowMatch 1)))))
    | None =>
        match String_match n addition_re with
        | Some additionMatch =>
            match parseInt (group additionMatch 1) with
            | Some quantity =>
                format (add (ValidDate today)
                          (duration_of (group additionMatch 2) quantity))
            | None => Throw (unable_to_parse input)
            end
        | None => Throw (unable_to_parse input)
        end
    end = Return out' ->
    exists day, today - 1 <= day /\ out' = format_day day).
  { intros out' Hr.
    destruct (String_match n fromNow_re) as [m|] eqn:Hm.
    - apply fromNow_re_inv in Hm as (q & ws1 & u & ws2 & ws3 & _ & -> & Hq & _).
      cbn [group nth Nat.sub] in Hr.
      destruct (quantity_of q) as [v| |] eqn:Hqv; try discriminate.
      cbn [isNaN number_of] in Hr.
      apply format_Return in Hr as (day & Hd & ->).
      apply add_duration_ValidDate in Hd. exists day. split; [|reflexivity].
      pose proof (days_of_nonneg u v (quantity_nonneg q v Hq Hqv)). lia.
    - destruct (String_match n addition_re) as [m|] eqn:Hm'; [|discriminate].
      apply addition_re_inv in Hm' as (q & u & -> & Hq & _).
      cbn [group nth Nat.sub] in Hr.
      rewrite (parseInt_digit_string q Hq) in Hr.
      apply format_Return in Hr as (day & Hd & ->).
      apply add_duration_ValidDate in Hd. exists day. split; [|reflexivity].
      assert (0 <= decimal_value q) by (apply leading_digits_nonneg; lia).
      pose proof (days_of_nonneg u (decimal_value q)). lia. }
  destruct (String_match n nextDay_re) as [m|]; [|now apply Hrest].
  unfold object_get in H.
  pose proof (DAY_FUNCTIONS_weekdays (group m 1)) as Hdf.
  destruct (own_property DAY_FUNCTIONS (group m 1)) as [f|].
  - destruct (own_property weekdays (group m 1)) as [wd|]; [|contradiction].
    destruct Hdf as [Hwd Hf]. rewrite Hf in H.
    now apply (Hnext wd).
  - destruct (String.eqb (group m 1) "constructor").
    { apply format_Return in H as (day & [= <-] & ->). exists today.
      split; [lia | reflexivity]. }
    destruct (String.eqb (group m 1) "__proto__"); [discriminate|].
    now apply Hrest.
Qed.

(** What [parseHumanDate] returns is either a text that it returns
    unchanged whenever it is given it, or the text of a day that is not
    before yesterday. *)
Lemma parseHumanDate_Return today input out :
  parseHumanDate today input = Return out ->
  (forall today', parseHumanDate today' out = Return out)
  \/ (exists day, today - 1 <= day /\ out = format_day day).
Proof.
  intros H.
  destruct (String_match (toLowerCase (trim input)) isoDate_re) as [m|] eqn:Hiso.
  { apply isoDate_re_inv in Hiso
      as (y1 & y2 & y3 & y4 & m1 & m2 & d1 & d2 & Hn
          & H1 & H2 & H3 & H4 & H5 & H6 & H7 & H8).
    rewrite (parseHumanDate_iso_chars _ _ _ _ _ _ _ _
               H1 H2 H3 H4 H5 H6 H7 H8 today input Hn) in H.
    destruct (valid_date_b _ _ _) eqn:Hv; [|discriminate].
    injection H as <-. left. intros today'.
    rewrite (parseHumanDate_iso_chars _ _ _ _ _ _ _ _
               H1 H2 H3 H4 H5 H6 H7 H8 today' _
               (iso_chars_normalized _ _ _ _ _ _ _ _ H1 H2 H3 H4 H5 H6 H7 H8)).
    now rewrite Hv. }
  right. now apply (parseHumanDate_relative_day today input).
Qed.

(** ** The date normalizer *)

Lemma prefix_refl s : String.prefix s s = true.
Proof.
  induction s as [|c s IH]; simpl; [reflexivity|].
  destruct (ascii_dec c c); [exact IH | contradiction].
Qed.

Lemma includes_self s : includes s s = true.
Proof. destruct s; cbn [includes]; now rewrite prefix_refl. Qed.

Lemma includes_suffix a b : includes (a ++ b) b = true.
Proof.
  induction a as [|c a IH]; cbn [append includes].
  - apply includes_self.
  - rewrite IH. apply orb_true_r.
Qed.

Lemma parseHumanDate_iso_text today y m d :
  valid_calendar_date y m d ->
  parseHumanDate today (iso_text y m d) = Return (iso_text y m d).
Proof.
  intros Hv. pose proof Hv as (Hy & Hm & Hd).
  pose proof (days_in_month_le_31 y m).
  rewrite iso_text_chars.
  rewrite (parseHumanDate_iso_chars
             (digit_char (y / 1000)) (digit_char (y / 100))
             (digit_char (y / 10)) (digit_char y)
             (digit_char (m / 10)) (digit_char m)
             (digit_char (d / 10)) (digit_char d)
             (digit_char_is_digit _) (digit_char_is_digit _)
             (digit_char_is_digit _) (digit_char_is_digit _)
             (digit_char_is_digit _) (digit_char_is_digit _)
             (digit_char_is_digit _) (digit_char_is_digit _) today).
  - rewrite four_digits_value, !two_digits_value by lia.
    apply valid_date_b_spec in Hv; [|lia]. now rewrite Hv.
  - apply iso_chars_normalized; apply digit_char_is_digit.
Qed.

(** C6, as amended.  When nothing is left of the input after trimming,
    [parseHumanDate] throws an [Error] whose message is the bare prefix
    and does not quote the input.  For any other input that no pattern
    recognizes, and for an input in the shape YYYY-MM-DD that is not a
    date of the calendar, it throws an [Error] whose message is the
    prefix followed by the input, and so contains the input. *)
Theorem parseHumanDate_failure :
  (forall today input,
      is_empty (toLowerCase (trim input)) = true ->
      parseHumanDate today input = Throw (new_Error "Unable to parse date: "))
  /\ (forall today input,
        is_empty (toLowerCase (trim input)) = false ->
        matches_no_pattern (toLowerCase (trim input)) = true ->
        parseHumanDate today input
        = Throw (new_Error ("Unable to parse date: " ++ input))
        /\ includes ("Unable to parse date: " ++ input) input = true)
  /\ (forall today input y1 y2 y3 y4 m1 m2 d1 d2,
        toLowerCase (trim input) = iso_chars y1 y2 y3 y4 m1 m2 d1 d2 ->
        is_digit y1 = true -> is_digit y2 = true -> is_digit y3 = true ->
        is_digit y4 = true -> is_digit m1 = true -> is_digit m2 = true ->
        is_digit d1 = true -> is_digit d2 = true ->
        ~ valid_calendar_date (value4 y1 y2 y3 y4) (value2 m1 m2)
            (value2 d1 d2) ->
        parseHumanDate today input
        = Throw (new_Error ("Unable to parse date: " ++ input))
        /\ includes ("Unable to parse date: " ++ input) input = true).
Proof.
  split; [exact parseHumanDate_empty|]. split.
  - intros today input Hne Hno. split; [|apply includes_suffix].
    now apply parseHumanDate_no_pattern.
  - intros today input y1 y2 y3 y4 m1 m2 d1 d2 Hn H1 H2 H3 H4 H5 H6 H7 H8 Hinv.
    split; [|apply includes_suffix].
    rewrite (parseHumanDate_iso_chars _ _ _ _ _ _ _ _
               H1 H2 H3 H4 H5 H6 H7 H8 today input Hn).
    destruct (valid_date_b _ _ _) eqn:Hv; [|reflexivity].
    apply valid_date_b_spec in Hv; [contradiction|].
    now apply year_range.
Qed.

(** C7, as amended.  A date of the calendar written YYYY-MM-DD is
    returned unchanged.  With a clock from 0001-01-02 on, an output of
    [parseHumanDate] that is ten characters long (a year of four
    digits) is returned unchanged when it is parsed again. *)
Theorem parseHumanDate_iso_fixed_point :
  (forall today y m d,
      valid_calendar_date y m d ->
      parseHumanDate today (iso_text y m d) = Return (iso_text y m d))
  /\ (forall today today' input out,
        parseHumanDate today input = Return out ->
        -719161 <= today ->
        String.length out = 10%nat ->
        parseHumanDate today' out = Return out).
Proof.
  split; [exact parseHumanDate_iso_text|].
  intros today today' input out H Htoday Hlen.
  destruct (parseHumanDate_Return today input out H) as [Hfix|(day & Hday & ->)];
    [apply Hfix|].
  destruct (civil_from_days day) as [[y m] d] eqn:Hc.
  destruct (year_bounds _ _ _ _ Hc) as [Hlow _].
  destruct (civil_from_days_valid _ _ _ _ Hc) as [Hm Hd].
  destruct (Z_le_gt_dec y 9999) as [Hy|Hy].
  - rewrite (format_day_iso _ _ _ _ Hc) by lia.
    apply parseHumanDate_iso_text. unfold valid_calendar_date. lia.
  - pose proof (format_day_long _ _ _ _ Hc ltac:(lia)). lia.
Qed.

Lemma iso_text_injective y m d y' m' d' :
  0 <= y <= 9999 -> 0 <= m <= 99 -> 0 <= d <= 99 ->
  0 <= y' <= 9999 -> 0 <= m' <= 99 -> 0 <= d' <= 99 ->
  iso_text y m d = iso_text y' m' d' -> y = y' /\ m = m' /\ d = d'.
Proof.
  intros Hy Hm Hd Hy' Hm' Hd' H. rewrite !iso_text_chars in H.
  unfold iso_chars in H. injection H as E1 E2 E3 E4 E5 E6 E7 E8.
  rewrite <- (four_digits_value y Hy), <- (four_digits_value y' Hy').
  rewrite <- (two_digits_value m Hm), <- (two_digits_value m' Hm').
  rewrite <- (two_digits_value d Hd), <- (two_digits_value d' Hd').
  now rewrite E1, E2, E3, E4, E5, E6, E7, E8.
Qed.

(** Between 0001-01-01 and 9999-12-31 two days have different texts. *)
Lemma format_day_injective day day' :
  -719162 <= day <= 2932896 -> -719162 <= day' <= 2932896 ->
  format_day day = format_day day' -> day = day'.
Proof.
  intros Hd Hd' H.
  destruct (civil_from_days day) as [[y m] d] eqn:Hc.
  destruct (civil_from_days day') as [[y' m'] d'] eqn:Hc'.
  destruct (year_bounds _ _ _ _ Hc) as [Hl Hu].
  destruct (year_bounds _ _ _ _ Hc') as [Hl' Hu'].
  destruct (civil_from_days_valid _ _ _ _ Hc) as [Hm Hdd].
  destruct (civil_from_days_valid _ _ _ _ Hc') as [Hm' Hdd'].
  pose proof (days_in_month_le_31 y m). pose proof (days_in_month_le_31 y' m').
  rewrite (format_day_iso _ _ _ _ Hc), (format_day_iso _ _ _ _ Hc') in H by lia.
  apply iso_text_injective in H as (-> & -> & ->); try lia.
  apply civil_from_days_injective. congruence.
Qed.

Lemma parseHumanDate_next_weekday today input name wd :
  In (name, wd) weekdays ->
  toLowerCase (trim input) = "next " ++ name ->
  0 <= wd <= 6
  /\ parseHumanDate today input = format (nextDay (ValidDate today) wd).
Proof.
  intros Hin Hn. unfold parseHumanDate. rewrite Hn. clear Hn.
  unfold weekdays in Hin. cbn [In] in Hin.
  repeat (destruct Hin as [[= <- <-]|Hin]; [split; [lia | reflexivity]|]).
  contradiction.
Qed.



(** A quantity that begins with digits and goes on with other word
    characters is read up to the last digit: [parseInt] ignores what
    follows. *)
Lemma parseHumanDate_fromNow_digit_prefix :
  digit_string "2abc" = false /\ number_word "2abc" = false
  /\ parseHumanDate frozen_today "2abc days from now" = Return "2025-11-20".
Proof. repeat split; vm_compute; reflexivity. Qed.

(** "next constructor" finds the inherited [Object] in [DAY_FUNCTIONS]
    and returns today; "next __proto__" finds [Object.prototype], which
    cannot be called. *)
Lemma parseHumanDate_next_inherited_key :
  parseHumanDate frozen_today "next constructor" = Return "2025-11-18"
  /\ parseHumanDate frozen_today "next __proto__"
     = Throw (JSErrorObj "TypeError" "dayFunction is not a function").
Proof. split; vm_compute; reflexivity. Qed.

(** ** The handler of the date tool *)

(** C10, as amended.  When the normalizer throws on the [dateString] of
    an invocation of the date tool, the handler catches the failure and
    returns an object with [success: false], the message and the
    input; [executeTool] then returns a result that holds this object
    in [result] and has no [error]. *)
Theorem dateParserTool_parse_failure
  (toolRegistry : ToolRegistry.t) (clock : PerformanceReadings) (today : Z)
  (invocation : ToolInvocation.t) (e : JSValue) :
  ToolRegistry.get toolRegistry (ToolInvocation.name invocation)
  = Some (dateParserTool today) ->
  parseHumanDate_of_value today
    (bag_get (ToolInvocation.parameters invocation) "dateString") = Throw e ->
  let payload :=
    JSObject
      [("success", JSBool false);
       ("error", JSString (error_message_or_unknown e));
       ("originalInput",
        bag_get (ToolInvocation.parameters invocation) "dateString")] in
  ToolDefinition.execute (dateParserTool today)
    (ToolInvocation.parameters invocation) = Return payload
  /\ exists r,
       executeTool toolRegistry clock invocation = Return r
       /\ ToolResult.result r = Some payload
       /\ ToolResult.error r = None.
Proof.
  intros Hget Hthrow payload.
  assert (Hrun : ToolDefinition.execute (dateParserTool today)
                   (ToolInvocation.parameters invocation) = Return payload).
  { cbn [dateParserTool ToolDefinition.execute]. rewrite Hthrow. reflexivity. }
  split; [exact Hrun|].
  exists (success_result clock invocation payload).
  split; [|split; reflexivity].
  now apply (executeTool_returned _ _ _ (dateParserTool today)).
Qed.

(** * Instances and counterexamples *)

Lemma example_clock_monotonic : monotonic example_clock.
Proof. unfold monotonic, example_clock, Qle. simpl. lia. Defined.

(** A handler that throws [new Error("boom")]: the result carries
    "boom". *)
Lemma executeTool_never_throws_witness :
  exists r,
    executeTool example_registry example_clock
      (invoke "inv-1" "failing_tool" []) = Return r
    /\ ToolResult.error r = Some "boom".
Proof.
  destruct (executeTool_never_throws example_registry example_clock
              (invoke "inv-1" "failing_tool" [])) as (r & Hr & Herr & _).
  exists r. split; [exact Hr|].
  apply (Herr failingTool "Error" "boom"); reflexivity.
Defined.

(** A batch of a success, an unknown tool and a failure. *)
Lemma executeTools_positional_witness :
  exists results,
    executeTools example_registry (fun _ => example_clock)
      [invoke "a" "test_tool" [("message", JSString "Hello")];
       invoke "b" "nonexistent_tool" [];
       invoke "c" "failing_tool" []] = Return results
    /\ length results = 3%nat
    /\ exists r,
         nth_error results 2 = Some r
         /\ executeTool example_registry example_clock
              (invoke "c" "failing_tool" []) = Return r.
Proof.
  destruct (executeTools_positional example_registry (fun _ => example_clock)
              [invoke "a" "test_tool" [("message", JSString "Hello")];
               invoke "b" "nonexistent_tool" [];
               invoke "c" "failing_tool" []])
    as (results & Hrun & Hlen & Hnth & _).
  exists results. split; [exact Hrun|]. split; [exact Hlen|].
  apply (Hnth 2%nat). reflexivity.
Defined.

Lemma executeTool_result_invariant_witness :
  monotonic example_clock
  /\ exists r,
       executeTool example_registry example_clock
         (invoke "inv-123" "test_tool" [("message", JSString "Hello")])
       = Return r
       /\ ((ToolResult.result r <> None /\ ToolResult.error r = None)
           \/ (ToolResult.result r = None /\ ToolResult.error r <> None))
       /\ (exists d, ToolResult.durationMs r = Some d /\ 0 <= d)
       /\ ToolResult.id r = "inv-123"
       /\ ToolResult.name r = "test_tool".
Proof.
  split; [exact example_clock_monotonic|].
  apply (executeTool_result_invariant example_registry example_clock
           (invoke "inv-123" "test_tool" [("message", JSString "Hello")])).
  exact example_clock_monotonic.
Defined.

Lemma register_duplicate_fails_witness :
  ToolRegistry.get example_registry "test_tool" = Some mockTool
  /\ ToolRegistry.register example_registry rivalTool
     = (Throw (new_Error ("Tool " ++ dquote ++ "test_tool" ++ dquote
                            ++ " is already registered")),
        example_registry)
  /\ ToolRegistry.get (snd (ToolRegistry.register example_registry rivalTool))
       "test_tool" = Some mockTool.
Proof.
  split; [reflexivity|].
  apply (register_duplicate_fails example_registry rivalTool mockTool).
  reflexivity.
Defined.

Lemma executeTool_unregistered_witness :
  ToolRegistry.get example_registry "nonexistent_tool" = None
  /\ exists r d,
       executeTool example_registry example_clock
         (invoke "inv-456" "nonexistent_tool" []) = Return r
       /\ ToolResult.error r
          = Some ("Tool " ++ dquote ++ "nonexistent_tool" ++ dquote
                    ++ " not found")
       /\ ToolResult.result r = None
       /\ ToolResult.durationMs r = Some d
       /\ 0 <= d.
Proof.
  split; [reflexivity|].
  apply (executeTool_unregistered example_registry example_clock
           (invoke "inv-456" "nonexistent_tool" []));
    [reflexivity | exact example_clock_monotonic].
Defined.

(** C6, as stated, fails on two spaces: the message of the failure is
    the bare prefix, in which two spaces in a row do not occur. *)
Lemma parseHumanDate_blank_input_not_in_message :
  parseHumanDate frozen_today "  "
  = Throw (new_Error "Unable to parse date: ")
  /\ includes "Unable to parse date: " "  " = false.
Proof. split; vm_compute; reflexivity. Qed.

Lemma parseHumanDate_failure_witness :
  parseHumanDate frozen_today "  "
  = Throw (new_Error "Unable to parse date: ")
  /\ (parseHumanDate frozen_today "gibberish"
      = Throw (new_Error "Unable to parse date: gibberish")
      /\ includes "Unable to parse date: gibberish" "gibberish" = true)
  /\ (parseHumanDate frozen_today "2025-13-45"
      = Throw (new_Error "Unable to parse date: 2025-13-45")
      /\ includes "Unable to parse date: 2025-13-45" "2025-13-45" = true).
Proof.
  destruct parseHumanDate_failure as (Hblank & Hnone & Hinvalid).
  split; [apply Hblank; reflexivity|]. split.
  - apply (Hnone frozen_today "gibberish"); reflexivity.
  - apply (Hinvalid frozen_today "2025-13-45" "2"%char "0"%char "2"%char "5"%char
             "1"%char "3"%char "4"%char "5"%char);
      try reflexivity.
    intros (_ & Hmonth & _). vm_compute in Hmonth.
    destruct Hmonth as [_ Hmonth]. apply Hmonth. reflexivity.
Defined.

(** C7, as stated, fails on an output beyond the year 9999: the text of
    the day 3,000,000 days from 2025-11-18 has a year of five digits,
    which the first pattern does not accept. *)
Lemma parseHumanDate_far_future_not_fixed_point :
  parseHumanDate frozen_today "3000000 days from now" = Return "10239-08-09"
  /\ parseHumanDate frozen_today "10239-08-09"
     = Throw (new_Error "Unable to parse date: 10239-08-09").
Proof. split; vm_compute; reflexivity. Qed.

Lemma parseHumanDate_iso_fixed_point_witness :
  parseHumanDate frozen_today "2025-12-25" = Return "2025-12-25"
  /\ (parseHumanDate frozen_today "tomorrow" = Return "2025-11-19"
      /\ parseHumanDate 0 "2025-11-19" = Return "2025-11-19").
Proof.
  destruct parseHumanDate_iso_fixed_point as (Hiso & Hfix).
  split.
  - apply (Hiso frozen_today 2025 12 25).
    unfold valid_calendar_date. vm_compute. intuition discriminate.
  - split; [reflexivity|].
    apply (Hfix frozen_today 0 "tomorrow" "2025-11-19");
      [reflexivity | unfold frozen_today; lia | reflexivity].
Defined.




(** C10, as stated, fails: for a [dateString] that cannot be parsed the
    tool result is of the kind that stands for success, with [result]
    defined and [error] not. *)
Lemma dateParserTool_failure_is_not_a_failure_result :
  exists r,
    executeTool example_registry example_clock
      (invoke "inv-9" "parse_date" [("dateString", JSString "gibberish")])
    = Return r
    /\ ToolResult.error r = None
    /\ ToolResult.result r
       = Some (JSObject
                 [("success", JSBool false);
                  ("error", JSString "Unable to parse date: gibberish");
                  ("originalInput", JSString "gibberish")]).
Proof. eexists. split; [reflexivity|]. split; reflexivity. Qed.

Lemma dateParserTool_parse_failure_witness :
  exists r,
    executeTool example_registry example_clock
      (invoke "inv-9" "parse_date" [("dateString", JSString "gibberish")])
    = Return r
    /\ ToolResult.result r
       = Some (JSObject
                 [("success", JSBool false);
                  ("error", JSString "Unable to parse date: gibberish");
                  ("originalInput", JSString "gibberish")])
    /\ ToolResult.error r = None.
Proof.
  apply (dateParserTool_parse_failure example_registry example_clock
           frozen_today
           (invoke "inv-9" "parse_date" [("dateString", JSString "gibberish")])
           (new_Error "Unable to parse date: gibberish"));
    reflexivity.
Defined.

(** The cases of lib/date-parser.test.ts, under its clock. *)
Example date_parser_test_suite :
  map (parseHumanDate frozen_today)
    ["today"; "tomorrow"; "yesterday"; "two days from now"; "2 days from now";
     "1 week from now"; "3 weeks from now"; "today + 2 days"; "today + 1 week";
     "today+2days"; "next week"; "next Monday"; "next Friday";
     "one day from now"; "three weeks from now"; "TODAY"; "Next Week";
     "2025-12-25"]
  = map Return
      ["2025-11-18"; "2025-11-19"; "2025-11-17"; "2025-11-20"; "2025-11-20";
       "2025-11-25"; "2025-12-09"; "2025-11-20"; "2025-11-25";
       "2025-11-20"; "2025-11-24"; "2025-11-24"; "2025-11-21";
       "2025-11-19"; "2025-12-09"; "2025-11-18"; "2025-11-24";
       "2025-12-25"]
  /\ parseHumanDate frozen_today "invalid date string"
     = Throw (new_Error "Unable to parse date: invalid date string")
  /\ parseHumanDate frozen_today EmptyString
     = Throw (new_Error "Unable to parse date: ")
  /\ parseHumanDate frozen_today "2025-13-45"
     = Throw (new_Error "Unable to parse date: 2025-13-45").
Proof. repeat split; vm_compute; reflexivity. Qed.

(** * Further properties *)

(** ** The registry *)

Lemma JSMap_set_absent {V : Type} (m : JSMap.t V) k v :
  JSMap.get m k = None -> JSMap.set m k v = (m ++ [(k, v)])%list.
Proof.
  induction m as [|[k' v'] m IH]; simpl; [reflexivity|].
  destruct (String.eqb k' k); [discriminate|]. intros H. now rewrite IH.
Qed.

Lemma JSMap_has_false {V : Type} (m : JSMap.t V) k :
  JSMap.has m k = false -> JSMap.get m k = None.
Proof. unfold JSMap.has. destruct (JSMap.get m k); [discriminate | reflexivity]. Qed.

Lemma register_fresh_registry this tool :
  ToolRegistry.has this (ToolDefinition.name tool) = false ->
  ToolRegistry.register this tool
  = (Return tt,
     ToolRegistry.mk
       (ToolRegistry.tools this ++ [(ToolDefinition.name tool, tool)])%list).
Proof.
  intros H. unfold ToolRegistry.register, ToolRegistry.has in *.
  rewrite H. now rewrite (JSMap_set_absent _ _ _ (JSMap_has_false _ _ H)).
Qed.

Lemma register_taken_registry this tool :
  ToolRegistry.has this (ToolDefinition.name tool) = true ->
  snd (ToolRegistry.register this tool) = this.
Proof.
  intros H. unfold ToolRegistry.register, ToolRegistry.has in *.
  now rewrite H.
Qed.

Lemma JSMap_get_app {V : Type} (m m' : JSMap.t V) k :
  JSMap.get (m ++ m')%list k
  = match JSMap.get m k with
    | Some v => Some v
    | None => JSMap.get m' k
    end.
Proof.
  induction m as [|[k' v'] m IH]; simpl; [reflexivity|].
  destruct (String.eqb k' k); [reflexivity | exact IH].
Qed.

Lemma get_register_fresh_same this tool :
  ToolRegistry.has this (ToolDefinition.name tool) = false ->
  ToolRegistry.get (snd (ToolRegistry.register this tool))
    (ToolDefinition.name tool) = Some tool.
Proof.
  intros H. rewrite (register_fresh_registry this tool H).
  unfold ToolRegistry.get. cbn [snd ToolRegistry.tools].
  rewrite JSMap_get_app, (JSMap_has_false _ _ H). cbn [JSMap.get].
  now rewrite String.eqb_refl.
Qed.

Lemma get_register_fresh_other this tool name :
  ToolRegistry.has this (ToolDefinition.name tool) = false ->
  name <> ToolDefinition.name tool ->
  ToolRegistry.get (snd (ToolRegistry.register this tool)) name
  = ToolRegistry.get this name.
Proof.
  intros H Hne. rewrite (register_fresh_registry this tool H).
  unfold ToolRegistry.get. cbn [snd ToolRegistry.tools].
  rewrite JSMap_get_app.
  destruct (JSMap.get (ToolRegistry.tools this) name); [reflexivity|].
  cbn [JSMap.get].
  destruct (String.eqb_spec (ToolDefinition.name tool) name);
    [congruence | reflexivity].
Qed.

(** Registering under a name that is free returns, after which [get]
    finds the definition under its name and every other name is looked
    up as before. *)
Theorem register_fresh_get (this : ToolRegistry.t) (tool : ToolDefinition.t) :
  ToolRegistry.has this (ToolDefinition.name tool) = false ->
  fst (ToolRegistry.register this tool) = Return tt
  /\ ToolRegistry.get (snd (ToolRegistry.register this tool))
       (ToolDefinition.name tool) = Some tool
  /\ ToolRegistry.has (snd (ToolRegistry.register this tool))
       (ToolDefinition.name tool) = true
  /\ forall name,
       name <> ToolDefinition.name tool ->
       ToolRegistry.get (snd (ToolRegistry.register this tool)) name
       = ToolRegistry.get this name.
Proof.
  intros H. split; [now rewrite (register_fresh_registry this tool H)|].
  pose proof (get_register_fresh_same this tool H) as Hget.
  split; [exact Hget|]. split.
  - unfold ToolRegistry.has, JSMap.has. unfold ToolRegistry.get in Hget.
    now rewrite Hget.
  - intros name Hne. now apply get_register_fresh_other.
Qed.

(** [getAll] lists the definitions in the order of their registration:
    a registration under a free name puts the definition last. *)
Theorem register_fresh_getAll (this : ToolRegistry.t) (tool : ToolDefinition.t) :
  ToolRegistry.has this (ToolDefinition.name tool) = false ->
  ToolRegistry.getAll (snd (ToolRegistry.register this tool))
  = (ToolRegistry.getAll this ++ [tool])%list.
Proof.
  intros H. rewrite (register_fresh_registry this tool H).
  unfold ToolRegistry.getAll, JSMap.values. cbn [snd ToolRegistry.tools].
  now rewrite map_app.
Qed.

(** [register] never removes or replaces: a name that [get] finds is
    found with the same definition after any call of [register]. *)
Theorem register_preserves_get
  (this : ToolRegistry.t) (tool existing : ToolDefinition.t) (name : string) :
  ToolRegistry.get this name = Some existing ->
  ToolRegistry.get (snd (ToolRegistry.register this tool)) name = Some existing.
Proof.
  intros Hget.
  destruct (ToolRegistry.has this (ToolDefinition.name tool)) eqn:Hhas.
  - now rewrite register_taken_registry.
  - rewrite get_register_fresh_other; [exact Hget | exact Hhas|].
    intros ->. apply JSMap_has_false in Hhas.
    unfold ToolRegistry.get in Hget. congruence.
Qed.

(** The entries of a registry are well formed when every definition is
    stored under its own name and no name occurs twice. *)
Lemma reachable_entries this :
  reachable this ->
  NoDup (map fst (ToolRegistry.tools this))
  /\ forall k t, In (k, t) (ToolRegistry.tools this) -> k = ToolDefinition.name t.
Proof.
  induction 1 as [|this tool Hr [Hnd Hnames]].
  - split; [constructor | intros k t []].
  - destruct (ToolRegistry.has this (ToolDefinition.name tool)) eqn:Hhas.
    + rewrite register_taken_registry by exact Hhas. auto.
    + rewrite (register_fresh_registry this tool Hhas). cbn [snd ToolRegistry.tools].
      split.
      * rewrite map_app. cbn [map fst].
        apply NoDup_app; [exact Hnd | repeat constructor; intros [] |].
        intros k Hin [<-|[]]. apply in_map_iff in Hin as ([k' t] & Hk & Hin).
        cbn [fst] in Hk. subst k'.
        apply JSMap_has_false in Hhas. clear -Hhas Hin.
        induction (ToolRegistry.tools this) as [|[k0 v0] m IH]; [contradiction|].
        simpl in Hhas. destruct (String.eqb_spec k0 (ToolDefinition.name tool)) as [->|Hne];
          [discriminate|].
        destruct Hin as [[= -> ->]|Hin]; [congruence | auto].
      * intros k t Hin. apply in_app_or in Hin as [Hin|[[= <- <-]|[]]]; auto.
Qed.

Lemma JSMap_get_In {V : Type} (m : JSMap.t V) k v :
  JSMap.get m k = Some v -> In (k, v) m.
Proof.
  induction m as [|[k' v'] m IH]; simpl; [discriminate|].
  destruct (String.eqb_spec k' k) as [->|_]; [intros [= ->]; auto | auto].
Qed.

Lemma JSMap_In_get {V : Type} (m : JSMap.t V) k v :
  NoDup (map fst m) -> In (k, v) m -> JSMap.get m k = Some v.
Proof.
  induction m as [|[k' v'] m IH]; simpl; [intros _ []|].
  intros Hnd [[= -> ->]|Hin]; [now rewrite String.eqb_refl|].
  inversion Hnd as [|? ? Hnotin Hnd']; subst.
  destruct (String.eqb_spec k' k) as [->|_]; [|auto].
  exfalso. apply Hnotin. apply in_map_iff. now exists (k, v).
Qed.

(** In every registry built by [register] the names of the definitions
    that [getAll] lists are pairwise different, each listed definition
    is the one [get] finds under its name, and [get] finds nothing
    else. *)
Theorem reachable_registry_invariant (this : ToolRegistry.t) :
  reachable this ->
  NoDup (map ToolDefinition.name (ToolRegistry.getAll this))
  /\ (forall tool,
         In tool (ToolRegistry.getAll this) ->
         ToolRegistry.get this (ToolDefinition.name tool) = Some tool)
  /\ (forall name tool,
         ToolRegistry.get this name = Some tool ->
         ToolDefinition.name tool = name /\ In tool (ToolRegistry.getAll this)).
Proof.
  intros Hr. destruct (reachable_entries this Hr) as [Hnd Hnames].
  unfold ToolRegistry.getAll, ToolRegistry.get, JSMap.values.
  split; [|split].
  - rewrite map_map.
    replace (map (fun x => ToolDefinition.name (snd x)) (ToolRegistry.tools this))
      with (map fst (ToolRegistry.tools this)); [exact Hnd|].
    apply map_ext_in. intros [k t] Hin. cbn. now apply Hnames.
  - intros tool Hin. apply in_map_iff in Hin as ([k t] & Ht & Hin).
    cbn [snd] in Ht. subst t. rewrite <- (Hnames k tool Hin).
    now apply JSMap_In_get.
  - intros name tool Hget. apply JSMap_get_In in Hget. split.
    + symmetry. now apply Hnames.
    + apply in_map_iff. now exists (name, tool).
Qed.

(** lib/llm/index.ts on a registry that has neither tool: both calls
    return, [getAll] lists the old definitions, then the weather tool,
    then the date tool, and both are found under their names. *)
Theorem llm_index_registers_both
  (weatherTool : ToolDefinition.t) (today : Z) (toolRegistry : ToolRegistry.t) :
  ToolDefinition.name weatherTool <> "parse_date" ->
  ToolRegistry.has toolRegistry (ToolDefinition.name weatherTool) = false ->
  ToolRegistry.has toolRegistry "parse_date" = false ->
  fst (llm_index weatherTool today toolRegistry) = Return tt
  /\ ToolRegistry.getAll (snd (llm_index weatherTool today toolRegistry))
     = (ToolRegistry.getAll toolRegistry
          ++ [weatherTool; dateParserTool today])%list
  /\ ToolRegistry.get (snd (llm_index weatherTool today toolRegistry))
       (ToolDefinition.name weatherTool) = Some weatherTool
  /\ ToolRegistry.get (snd (llm_index weatherTool today toolRegistry))
       "parse_date" = Some (dateParserTool today).
Proof.
  intros Hne Hw Hd. unfold llm_index.
  pose proof (get_register_fresh_same toolRegistry weatherTool Hw) as Hgw.
  assert (Hall : ToolRegistry.getAll
                   (snd (ToolRegistry.register toolRegistry weatherTool))
                 = (ToolRegistry.getAll toolRegistry ++ [weatherTool])%list).
  { rewrite (register_fresh_registry toolRegistry weatherTool Hw).
    unfold ToolRegistry.getAll, JSMap.values. cbn [snd ToolRegistry.tools].
    now rewrite map_app. }
  assert (Hd' : ToolRegistry.has
                  (snd (ToolRegistry.register toolRegistry weatherTool))
                  (ToolDefinition.name (dateParserTool today)) = false).
  { cbn [dateParserTool ToolDefinition.name].
    unfold ToolRegistry.has, JSMap.has in *.
    change (JSMap.get (ToolRegistry.tools ?r) "parse_date")
      with (ToolRegistry.get r "parse_date").
    rewrite get_register_fresh_other by (exact Hw || congruence). exact Hd. }
  rewrite (register_fresh_registry toolRegistry weatherTool Hw) in *.
  cbn [snd] in *.
  set (registry := ToolRegistry.mk _) in *.
  pose proof (get_register_fresh_same registry _ Hd') as Hgd.
  split; [now rewrite (register_fresh_registry registry _ Hd')|].
  split; [|split].
  - rewrite (register_fresh_registry registry _ Hd').
    unfold ToolRegistry.getAll, JSMap.values in *. cbn [snd ToolRegistry.tools].
    rewrite map_app, Hall. now rewrite <- app_assoc.
  - rewrite get_register_fresh_other by assumption. exact Hgw.
  - exact Hgd.
Qed.

(** Run a second time on the registry it has filled, the module throws
    at its first statement and leaves the registry as it was. *)
Theorem llm_index_twice_throws
  (weatherTool : ToolDefinition.t) (today : Z) (toolRegistry : ToolRegistry.t) :
  ToolRegistry.has toolRegistry (ToolDefinition.name weatherTool) = false ->
  let filled := snd (llm_index weatherTool today toolRegistry) in
  exists e, llm_index weatherTool today filled = (Throw e, filled).
Proof.
  intros Hw filled.
  assert (Hhas : JSMap.has (ToolRegistry.tools filled)
                   (ToolDefinition.name weatherTool) = true).
  { unfold filled, llm_index.
    pose proof (get_register_fresh_same toolRegistry weatherTool Hw) as Hgw.
    rewrite (register_fresh_registry toolRegistry weatherTool Hw) in *.
    cbn [snd] in Hgw. set (registry := ToolRegistry.mk _) in *.
    assert (Hkept : ToolRegistry.get
                      (snd (ToolRegistry.register registry (dateParserTool today)))
                      (ToolDefinition.name weatherTool) = Some weatherTool).
    { destruct (ToolRegistry.has registry
                  (ToolDefinition.name (dateParserTool today))) eqn:Hhas.
      - now rewrite register_taken_registry.
      - rewrite get_register_fresh_other; [exact Hgw | exact Hhas|].
        intros E. apply JSMap_has_false in Hhas. rewrite <- E in Hhas.
        unfold ToolRegistry.get in Hgw. congruence. }
    unfold JSMap.has. unfold ToolRegistry.get in Hkept. now rewrite Hkept. }
  unfold llm_index at 1. unfold ToolRegistry.register. rewrite Hhas. eauto.
Qed.

(** ** The executor *)

(** What [executeTool] returns is fixed by the handler found under the
    name and by what the handler does with the parameters. *)
Lemma executeTool_found toolRegistry clock invocation tool :
  ToolRegistry.get toolRegistry (ToolInvocation.name invocation) = Some tool ->
  executeTool toolRegistry clock invocation
  = Return (result_of_outcome clock invocation
              (ToolDefinition.execute tool
                 (ToolInvocation.parameters invocation))).
Proof.
  intros Hget.
  destruct (ToolDefinition.execute tool (ToolInvocation.parameters invocation))
    as [v|e] eqn:Hrun; cbn [result_of_outcome].
  - now apply (executeTool_returned _ _ _ tool).
  - now apply (executeTool_threw _ _ _ tool).
Qed.

(** Register, then execute: after a definition has been registered
    under a free name, an invocation of that name runs its handler on
    the parameters of the invocation, a value the handler returns is
    the [result] unchanged, and invocations of every other name give
    what they gave before. *)
Theorem register_then_executeTool
  (toolRegistry : ToolRegistry.t) (tool : ToolDefinition.t)
  (clock : PerformanceReadings) :
  ToolRegistry.has toolRegistry (ToolDefinition.name tool) = false ->
  let registry := snd (ToolRegistry.register toolRegistry tool) in
  (forall invocation,
      ToolInvocation.name invocation = ToolDefinition.name tool ->
      executeTool registry clock invocation
      = Return (result_of_outcome clock invocation
                  (ToolDefinition.execute tool
                     (ToolInvocation.parameters invocation))))
  /\ (forall invocation value,
        ToolInvocation.name invocation = ToolDefinition.name tool ->
        ToolDefinition.execute tool (ToolInvocation.parameters invocation)
        = Return value ->
        exists r,
          executeTool registry clock invocation = Return r
          /\ ToolResult.result r = Some value
          /\ ToolResult.error r = None)
  /\ (forall invocation,
        ToolInvocation.name invocation <> ToolDefinition.name tool ->
        executeTool registry clock invocation
        = executeTool toolRegistry clock invocation).
Proof.
  intros Hfree registry.
  pose proof (get_register_fresh_same toolRegistry tool Hfree) as Hget.
  fold registry in Hget.
  split; [|split].
  - intros invocation Hname. apply executeTool_found. now rewrite Hname.
  - intros invocation value Hname Hrun.
    exists (success_result clock invocation value).
    split; [|split; reflexivity].
    apply (executeTool_returned _ _ _ tool); [now rewrite Hname | exact Hrun].
  - intros invocation Hname. unfold executeTool, registry.
    now rewrite (get_register_fresh_other _ _ _ Hfree Hname).
Qed.

Lemma map_from_app {A B : Type} (f : nat -> A -> B) l l' :
  forall i, map_from f i (l ++ l')%list
            = (map_from f i l ++ map_from f (i + length l) l')%list.
Proof.
  induction l as [|a l IH]; intros i; simpl.
  - now rewrite Nat.add_0_r.
  - rewrite IH. now rewrite Nat.add_succ_r.
Qed.

Lemma map_from_shift {A B : Type} (f : nat -> A -> B) l n :
  forall i, map_from f (i + n) l = map_from (fun j => f (j + n)%nat) i l.
Proof. induction l as [|a l IH]; intros i; simpl; [reflexivity|]. now rewrite <- IH. Qed.

(** A batch can be cut in two: the results of a batch are the results
    of its first part followed by those of the rest (the calls of the
    rest keeping their clock readings), and the empty batch gives no
    result. *)
Theorem executeTools_append
  (toolRegistry : ToolRegistry.t) (clocks : nat -> PerformanceReadings)
  (first rest : list ToolInvocation.t) :
  executeTools toolRegistry clocks [] = Return []
  /\ exists results results',
       executeTools toolRegistry clocks first = Return results
       /\ executeTools toolRegistry
            (fun i => clocks (i + length first)%nat) rest = Return results'
       /\ executeTools toolRegistry clocks (first ++ rest)
          = Return (results ++ results')%list.
Proof.
  split; [reflexivity|].
  assert (Hall : forall c l,
             executeTools toolRegistry c l
             = Return (map_from (fun i => executeTool_result toolRegistry (c i))
                         0%nat l)).
  { intros c l. unfold executeTools. apply Promise_all_Return.
    intros i a. apply executeTool_result_eq. }
  do 2 eexists. split; [apply Hall|]. split; [apply Hall|].
  rewrite Hall, map_from_app.
  now rewrite (map_from_shift
                 (fun i => executeTool_result toolRegistry (clocks i))).
Qed.

(** ** The date normalizer, further *)

Ltac split_parser H :=
  repeat match type of H with
    | context [match ?x with _ => _ end] =>
        lazymatch x with
        | context [match _ with _ => _ end] => fail
        | _ => destruct x
        end
    end.

(** The result depends on the input through its trimmed, lower-case
    form only: two inputs that differ in case or in the white space
    around them give the same date. *)
Theorem parseHumanDate_normalized (today : Z) (input input' out : string) :
  toLowerCase (trim input) = toLowerCase (trim input') ->
  parseHumanDate today input = Return out ->
  parseHumanDate today input' = Return out.
Proof.
  intros Hn H. unfold parseHumanDate in *. rewrite <- Hn. cbv zeta in *.
  set (n := toLowerCase (trim input)) in *. clearbody n. clear Hn.
  split_parser H; try discriminate H; exact H.
Qed.

Lemma format_Throw date e :
  format date = Throw e -> e = JSErrorObj "RangeError" "Invalid time value".
Proof. destruct date; simpl; [discriminate|]. now intros [= <-]. Qed.

(** Whatever [parseHumanDate] throws is an [Error]: its own, with the
    message "Unable to parse date: " alone or followed by the input;
    the RangeError of [format]; or the TypeError of the call of an
    inherited [__proto__]. *)
Theorem parseHumanDate_throws_Error (today : Z) (input : string) (e : JSValue) :
  parseHumanDate today input = Throw e ->
  e = new_Error "Unable to parse date: "
  \/ e = new_Error ("Unable to parse date: " ++ input)
  \/ e = JSErrorObj "RangeError" "Invalid time value"
  \/ e = JSErrorObj "TypeError" "dayFunction is not a function".
Proof.
  intros H. unfold parseHumanDate in H. cbv zeta in H.
  set (n := toLowerCase (trim input)) in *. clearbody n.
  split_parser H; try discriminate H;
    try (apply format_Throw in H; tauto);
    injection H as <-; unfold unable_to_parse; tauto.
Qed.


Lemma nextDay_formula today wd :
  0 <= wd <= 6 ->
  nextDay (ValidDate today) wd
  = TimeClip (today + ((wd - getDay today - 1) mod 7 + 1)).
Proof.
  intros Hwd. pose proof (getDay_range today) as Hg.
  unfold nextDay, addDays.
  set (delta := if wd - getDay today <=? 0 then wd - getDay today + 7
                else wd - getDay today).
  assert (Hdelta : delta = (wd - getDay today - 1) mod 7 + 1).
  { unfold delta. destruct (Z.leb_spec (wd - getDay today) 0).
    - replace (wd - getDay today - 1) with (wd - getDay today + 6 + (-1) * 7)
        by lia.
      rewrite Z.mod_add, Z.mod_small by lia. lia.
    - rewrite Z.mod_small by lia. lia. }
  assert (delta <> 0).
  { rewrite Hdelta.
    pose proof (Z.mod_pos_bound (wd - getDay today - 1) 7 ltac:(lia)). lia. }
  destruct (Z.eqb_spec delta 0); [contradiction|]. now rewrite Hdelta.
Qed.



(** What [parseHumanDate] returns is either the trimmed, lower-case
    input itself (the first pattern) or the text of a day that is not
    before yesterday: no phrase reaches further back. *)
Theorem parseHumanDate_never_before_yesterday
  (today : Z) (input out : string) :
  parseHumanDate today input = Return out ->
  out = toLowerCase (trim input)
  \/ exists day, today - 1 <= day /\ out = format_day day.
Proof.
  intros H.
  destruct (String_match (toLowerCase (trim input)) isoDate_re) as [m|] eqn:Hiso.
  - left. unfold parseHumanDate in H. rewrite Hiso in H.
    destruct (is_empty _); [discriminate|].
    destruct (negb _); [discriminate|]. now injection H as <-.
  - right. now apply (parseHumanDate_relative_day today input).
Qed.

Section AdditionPhrase.
Variables ws1 ws2 q ws3 u : string.
Hypothesis Hws1 : blanks ws1.
Hypothesis Hws2 : blanks ws2.
Hypothesis Hq : digit_string q = true.
Hypothesis Hws3 : blanks ws3.
Hypothesis Hu : unit_word u.

Let phrase : string := addition_phrase ws1 ws2 q ws3 u.

Lemma stops_digit_before_unit : stops Digit (ws3 ++ u ++ EmptyString).
Proof.
destruct ws3 as [|c ws]; cbn [append stops].
- destruct Hu as [-> | [-> | [-> | ->]]]; reflexivity.
- unfold blanks in Hws3. cbn [all_chars] in Hws3.
  apply andb_prop in Hws3 as [Hc _]. cbn [atom_test].
  destruct (is_digit c) eqn:Hd; [|reflexivity].
  apply digit_not_whitespace in Hd. congruence.
Qed.

Lemma addition_phrase_match : String_match phrase addition_re = Some [q; u].
Proof.
apply String_match_first. unfold phrase, addition_phrase, addition_re.
cbn [seq_re fold_right]. rewrite <- (append_nil_r u) at 1.
destruct (digit_string_token q Hq) as [Hqw _].
unfold digit_string in Hq. apply andb_prop in Hq as [Hne Hdigits].
eapply fm_cat; [apply fm_lit|].
eapply fm_cat; [apply fm_star; [exact Hws1 | exact (eq_refl false)]|].
eapply fm_cat; [apply (fm_lit "+")|].
eapply fm_cat; [apply fm_star; [exact Hws2 | now apply stops_after_word]|].
eapply fm_cat.
{ apply (fm_group _ _ _ [] []).
  apply fm_plus; [exact (proj1 Hqw) | exact Hdigits
                 | exact stops_digit_before_unit]. }
eapply fm_cat.
{ apply fm_star; [exact Hws3|].
  apply stops_after_word, unit_word_token, Hu. }
eapply fm_cat; [|apply fm_eps].
apply (fm_group _ _ _ [q] [q]). apply fm_unit_re; [exact Hu | exact I].
Qed.

Lemma addition_phrase_chars :
all_chars (fun c => is_word_char c || is_whitespace c) phrase = false.
Proof.
unfold phrase, addition_phrase. rewrite !all_chars_append.
cbn [all_chars]. change (is_word_char "+" || is_whitespace "+") with false.
cbn [andb]. now rewrite !andb_false_r.
Qed.

Lemma addition_phrase_not_fromNow : String_match phrase fromNow_re = None.
Proof.
destruct (String_match phrase fromNow_re) as [caps|] eqn:E; [|reflexivity].
apply fromNow_re_inv in E
  as (q' & a & u' & b & c & E & _ & Hq' & Ha & Hu' & Hb & Hc).
pose proof (fromNow_phrase_chars q' a u' b c Hq' Ha Hu' Hb Hc) as Hchars.
rewrite <- E, addition_phrase_chars in Hchars. discriminate.
Qed.

Lemma addition_phrase_not_today : String.eqb phrase "today" = false.
Proof.
unfold phrase, addition_phrase. destruct ws1; reflexivity.
Qed.

(** The fifth pattern: what the parser does with the phrase. *)
Lemma parseHumanDate_addition today input :
toLowerCase (trim input) = phrase ->
parseHumanDate today input
= format (add (ValidDate today) (duration_of u (decimal_value q))).
Proof.
intros Hn. unfold parseHumanDate. rewrite Hn.
change (is_empty phrase) with false. cbv iota.
change (String_match phrase isoDate_re) with (@None captures). cbv iota.
rewrite addition_phrase_not_today.
change (String.eqb phrase "tomorrow") with false.
change (String.eqb phrase "yesterday") with false.
change (String.eqb phrase "next week") with false.
change (String_match phrase nextDay_re) with (@None captures). cbv iota.
rewrite addition_phrase_not_fromNow, addition_phrase_match.
cbn [group nth Nat.sub]. now rewrite (parseInt_digit_string q Hq).
Qed.
End AdditionPhrase.


(** ** The handler of the date tool, further *)

Lemma parseHumanDate_of_value_throws_Error today v e :
  parseHumanDate_of_value today v = Throw e -> instanceof_Error e = true.
Proof.
  destruct v; cbn [parseHumanDate_of_value trim_TypeError];
    try (intros [= <-]; reflexivity).
  intros H. unfold parseHumanDate in H. cbv zeta in H.
  set (n := toLowerCase (trim s)) in *. clearbody n.
  split_parser H; try discriminate H;
    try (apply format_Throw in H; subst e; reflexivity);
    injection H as <-; reflexivity.
Qed.

(** The handler of the date tool never throws, whatever the parameters
    (a [dateString] that is missing or is not a string included).  It
    returns [success: true] with the date when the normalizer returns,
    and [success: false] with the message of the [Error] that the
    normalizer threw otherwise: the fallback text for a thrown value
    that is not an [Error] is never used.  [originalInput] is the
    [dateString] it was given. *)
Theorem dateParserTool_execute_total (today : Z) (params : ParameterBag) :
  let dateString := bag_get params "dateString" in
  (exists date,
      parseHumanDate_of_value today dateString = Return date
      /\ ToolDefinition.execute (dateParserTool today) params
         = Return (JSObject [("success", JSBool true);
                             ("date", JSString date);
                             ("originalInput", dateString)]))
  \/ (exists ctor message,
        parseHumanDate_of_value today dateString
        = Throw (JSErrorObj ctor message)
        /\ ToolDefinition.execute (dateParserTool today) params
           = Return (JSObject [("success", JSBool false);
                               ("error", JSString message);
                               ("originalInput", dateString)])).
Proof.
  intros dateString. cbn [dateParserTool ToolDefinition.execute].
  fold dateString.
  destruct (parseHumanDate_of_value today dateString) as [date|e] eqn:Hp.
  - left. exists date. split; reflexivity.
  - right. pose proof (parseHumanDate_of_value_throws_Error _ _ _ Hp) as He.
    destruct e; try discriminate He. do 2 eexists. split; reflexivity.
Qed.

(** An invocation of the registered date tool never gives a result
    with [error]: whatever the parameters, [executeTool] returns a
    result whose [result] is the object the handler returned. *)
Theorem executeTool_dateParserTool_no_error
  (toolRegistry : ToolRegistry.t) (clock : PerformanceReadings) (today : Z)
  (invocation : ToolInvocation.t) :
  ToolRegistry.get toolRegistry (ToolInvocation.name invocation)
  = Some (dateParserTool today) ->
  exists r payload,
    executeTool toolRegistry clock invocation = Return r
    /\ ToolDefinition.execute (dateParserTool today)
         (ToolInvocation.parameters invocation) = Return payload
    /\ ToolResult.result r = Some payload
    /\ ToolResult.error r = None.
Proof.
  intros Hget.
  assert (Hrun : exists payload,
             ToolDefinition.execute (dateParserTool today)
               (ToolInvocation.parameters invocation) = Return payload).
  { cbn [dateParserTool ToolDefinition.execute].
    destruct (parseHumanDate_of_value today _); cbn [bind try_catch]; eauto. }
  destruct Hrun as [payload Hrun].
  exists (success_result clock invocation payload), payload.
  split; [apply (executeTool_returned _ _ _ _ _ Hget Hrun)|].
  split; [exact Hrun | split; reflexivity].
Qed.

(** ** Instances of the further properties *)

Lemma example_registry_reachable : reachable example_registry.
Proof.
  unfold example_registry, register_all. cbn [fold_left].
  repeat apply reachable_register. apply reachable_new.
Defined.

Lemma register_fresh_get_witness :
  ToolRegistry.has ToolRegistry.new "test_tool" = false
  /\ ToolRegistry.get (snd (ToolRegistry.register ToolRegistry.new mockTool))
       "test_tool" = Some mockTool.
Proof.
  split; [reflexivity|].
  apply (register_fresh_get ToolRegistry.new mockTool). reflexivity.
Defined.

Lemma register_fresh_getAll_witness :
  ToolRegistry.has (snd (ToolRegistry.register ToolRegistry.new mockTool))
    "failing_tool" = false
  /\ ToolRegistry.getAll
       (snd (ToolRegistry.register
               (snd (ToolRegistry.register ToolRegistry.new mockTool))
               failingTool))
     = [mockTool; failingTool].
Proof.
  split; [reflexivity|].
  apply (register_fresh_getAll
           (snd (ToolRegistry.register ToolRegistry.new mockTool))
           failingTool).
  reflexivity.
Defined.

Lemma register_preserves_get_witness :
  ToolRegistry.get example_registry "test_tool" = Some mockTool
  /\ ToolRegistry.get (snd (ToolRegistry.register example_registry rivalTool))
       "test_tool" = Some mockTool.
Proof.
  split; [reflexivity|].
  apply (register_preserves_get example_registry rivalTool mockTool).
  reflexivity.
Defined.

Lemma reachable_registry_invariant_witness :
  NoDup (map ToolDefinition.name (ToolRegistry.getAll example_registry))
  /\ ToolRegistry.get example_registry (ToolDefinition.name failingTool)
     = Some failingTool.
Proof.
  destruct (reachable_registry_invariant example_registry
              example_registry_reachable) as (Hnd & Hin & _).
  split; [exact Hnd|]. apply Hin. cbn. tauto.
Defined.

Lemma llm_index_registers_both_witness :
  fst (llm_index mockTool frozen_today ToolRegistry.new) = Return tt
  /\ ToolRegistry.getAll (snd (llm_index mockTool frozen_today ToolRegistry.new))
     = [mockTool; dateParserTool frozen_today].
Proof.
  destruct (llm_index_registers_both mockTool frozen_today ToolRegistry.new)
    as (Hfst & Hall & _); [discriminate | reflexivity | reflexivity |].
  split; [exact Hfst | exact Hall].
Defined.

Lemma llm_index_twice_throws_witness :
  exists e,
    llm_index mockTool frozen_today
      (snd (llm_index mockTool frozen_today ToolRegistry.new))
    = (Throw e, snd (llm_index mockTool frozen_today ToolRegistry.new)).
Proof.
  apply (llm_index_twice_throws mockTool frozen_today ToolRegistry.new).
  reflexivity.
Defined.

Lemma register_then_executeTool_witness :
  exists r,
    executeTool (snd (ToolRegistry.register ToolRegistry.new mockTool))
      example_clock (invoke "inv-1" "test_tool" [("message", JSString "Hello")])
    = Return r
    /\ ToolResult.result r = Some (JSObject [("echo", JSString "Hello")])
    /\ ToolResult.error r = None.
Proof.
  destruct (register_then_executeTool ToolRegistry.new mockTool example_clock)
    as (_ & Hvalue & _); [reflexivity|].
  apply Hvalue; reflexivity.
Defined.

Lemma parseHumanDate_normalized_witness :
  parseHumanDate frozen_today "  Next FRIDAY " = Return "2025-11-21".
Proof.
  apply (parseHumanDate_normalized frozen_today "next friday"); reflexivity.
Defined.

Lemma parseHumanDate_throws_Error_witness :
  new_Error "Unable to parse date: gibberish" = new_Error "Unable to parse date: "
  \/ new_Error "Unable to parse date: gibberish"
     = new_Error ("Unable to parse date: " ++ "gibberish")
  \/ new_Error "Unable to parse date: gibberish"
     = JSErrorObj "RangeError" "Invalid time value"
  \/ new_Error "Unable to parse date: gibberish"
     = JSErrorObj "TypeError" "dayFunction is not a function".
Proof.
  apply (parseHumanDate_throws_Error frozen_today "gibberish"). reflexivity.
Defined.

Lemma frozen_today_in_range :
  in_Date_range (frozen_today - 1) /\ in_Date_range frozen_today
  /\ in_Date_range (frozen_today + 1) /\ in_Date_range (frozen_today + 7).
Proof. unfold in_Date_range, MAX_DAY, frozen_today. lia. Defined.

Lemma frozen_today_inside_range :
  inside_Date_range (frozen_today - 1) /\ inside_Date_range frozen_today
  /\ inside_Date_range (frozen_today + 1)
  /\ inside_Date_range (frozen_today + 2)
  /\ inside_Date_range (frozen_today + 7).
Proof. unfold inside_Date_range, MAX_DAY, frozen_today. lia. Defined.




Lemma parseHumanDate_never_before_yesterday_witness :
  "2025-11-17" = toLowerCase (trim "yesterday")
  \/ exists day, frozen_today - 1 <= day /\ "2025-11-17" = format_day day.
Proof.
  apply (parseHumanDate_never_before_yesterday frozen_today "yesterday").
  reflexivity.
Defined.


Lemma executeTool_dateParserTool_no_error_witness :
  exists r payload,
    executeTool example_registry example_clock
      (invoke "inv-7" "parse_date" []) = Return r
    /\ ToolDefinition.execute (dateParserTool frozen_today) [] = Return payload
    /\ ToolResult.result r = Some payload
    /\ ToolResult.error r = None.
Proof.
  apply (executeTool_dateParserTool_no_error example_registry example_clock
           frozen_today (invoke "inv-7" "parse_date" [])).
  reflexivity.
Defined.
